(** * qmlwrap::ListModel (deps/src/qmlwrap/listmodel.cpp)

    A shallow embedding of the list model that adapts a Julia array to Qt's
    [QAbstractListModel], and the properties of it that the specification
    states.

    Every member function is a computation in a small monad that threads the
    object's fields, collects what the function emits (Qt signals, warnings,
    collector pins, calls into Julia) and has two abnormal outcomes: a
    [std::runtime_error] in flight, and undefined behaviour (an index outside
    a buffer, a signed overflow).

    Conventions:
    - an [int] is a [Z]; the sums [move] computes on its unchecked arguments
      go through [int], which is undefined outside the 32-bit range; the
      number of items is assumed to fit an [int], except where [count()]
      and [rowCount()] convert it to the [int] they return;
    - Qt's [begin...]/[end...] calls and signals are recorded in the order
      the code issues them, with the arguments it passes;
    - the update hook is a call into Julia that reads the array; it is
      recorded and leaves the model's fields alone;
    - [JL_GC_PUSH]/[JL_GC_POP] frames root locals for the length of a call
      and are not pins; only the buffer of [JL_GC_PUSHARGS] is modelled. *)

From Stdlib Require Import ZArith Lia.
From stdpp Require Import base option list gmap strings.

Local Open Scope Z_scope.

Module qmlwrap.

(** ** What the file takes from its collaborators

    Julia values and functions, Qt's variant and the conversions between
    them are opaque to the model.  [jl_call f args] is the value a Julia
    function returns ([None]: the call raised, the C API hands back
    [nullptr]); [call_setter f a v pos] is the content of the Julia array
    [a] after the setter [f] ran on [(a, v, pos)].  [string_fn] is
    [JuliaFunction("string").pointer()].

    [m_array.size()] is declared in cxx_wrap.  [size_is_unsigned] says
    whether it returns an unsigned type: then a comparison with an [int]
    converts the [int], and a negative one compares as larger than any
    size. *)
Class Host := {
  jl_value : Type;
  jl_function : Type;
  QVariant : Type;
  string_fn : jl_function;
  jl_call : jl_function → list jl_value → option jl_value;
  call_setter : jl_function → list jl_value → jl_value → Z → list jl_value;
  convert_to_cpp : option jl_value → QVariant;
  convert_to_julia : QVariant → jl_value;
  box : QVariant → jl_value;
  QVariant_invalid : QVariant;
  size_is_unsigned : bool
}.

Section Model.
Context {H : Host}.

(** A [QJSValue] handed to [append]: an array of values, or an object read
    through [hasProperty] and [property]. *)
Inductive QJSValue :=
| JSArray (items : list QVariant)
| JSObject (props : gmap string QVariant).

(** What [protect_from_gc] and [unprotect_from_gc] are called on: the wrapped
    array, or a function pointer ([FunPtr None] is [nullptr]). *)
Inductive jl_ptr :=
| ArrayPtr
| FunPtr (f : option jl_function).

Inductive warning :=
| RowOutOfRange (row : Z)
| NullSetter (rolename : string)
| NoConstructor
| AppendError (args : list QVariant)
| InvalidMove
| RoleExists (name : string)
| InvalidGetter (name : string)
| GetterRoleOutOfRange (role : Z)
| SetterRoleOutOfRange (role : Z)
| SetroleIndexOutOfRange (idx : Z)
| SetroleRoleExists (name : string)
| SetroleInvalidGetter (name : string)
| RemoveNonExistingRole
| RolenameNotFound (name : string).

Inductive event :=
| qWarning (w : warning)
| beginInsertRows (first last : Z)
| endInsertRows
| beginRemoveRows (first last : Z)
| endRemoveRows
| beginMoveRows (first last dest : Z)
| endMoveRows
| countChanged
| rolesChanged
| dataChanged (first last : Z) (roles : list Z)
| protect_from_gc (p : jl_ptr)
| unprotect_from_gc (p : jl_ptr)
| jl_call0 (f : jl_function)
| setter_called (f : jl_function) (v : jl_value) (pos : Z).

(** The fields of the class. *)
Record ListModel := mkListModel {
  m_array : list jl_value;
  m_update_array : option jl_function;
  m_constructor : option jl_function;
  m_rolenames : gmap Z string;
  m_getters : list (option jl_function);
  m_setters : list (option jl_function);
  m_custom_roles : bool
}.

Definition with_array (a : list jl_value) (m : ListModel) : ListModel :=
  mkListModel a (m_update_array m) (m_constructor m) (m_rolenames m)
    (m_getters m) (m_setters m) (m_custom_roles m).

Definition with_rolenames (r : gmap Z string) (m : ListModel) : ListModel :=
  mkListModel (m_array m) (m_update_array m) (m_constructor m) r
    (m_getters m) (m_setters m) (m_custom_roles m).

Definition with_constructor (c : option jl_function) (m : ListModel) : ListModel :=
  mkListModel (m_array m) (m_update_array m) c (m_rolenames m)
    (m_getters m) (m_setters m) (m_custom_roles m).

Definition with_roles (r : gmap Z string) (g s : list (option jl_function))
    (custom : bool) (m : ListModel) : ListModel :=
  mkListModel (m_array m) (m_update_array m) (m_constructor m) r g s custom.

(** ** The monad *)

Inductive outcome (A : Type) :=
| Returns (a : A) (m : ListModel) (evs : list event)
| Throws (m : ListModel) (evs : list event)
| Undefined.
Arguments Returns {A} a m evs.
Arguments Throws {A} m evs.
Arguments Undefined {A}.

Definition M (A : Type) : Type := ListModel → outcome A.

Definition after {A} (evs : list event) (o : outcome A) : outcome A :=
  match o with
  | Returns a m evs' => Returns a m (evs ++ evs')
  | Throws m evs' => Throws m (evs ++ evs')
  | Undefined => Undefined
  end.

#[export] Instance M_ret : MRet M := λ A a m, Returns a m [].

#[export] Instance M_bind : MBind M := λ A B k x m,
  match x m with
  | Returns a m' evs => after evs (k a m')
  | Throws m' evs => Throws m' evs
  | Undefined => Undefined
  end.

Definition get : M ListModel := λ m, Returns m m [].
Definition modify (f : ListModel → ListModel) : M unit := λ m, Returns tt (f m) [].
Definition emit (e : event) : M unit := λ m, Returns tt m [e].
Definition throw {A} : M A := λ m, Throws m [].
Definition undefined {A} : M A := λ _, Undefined.

(** [try { body } catch (const std::runtime_error&) { handler }] *)
Definition try_catch {A} (body handler : M A) : M A := λ m,
  match body m with
  | Throws m' evs => after evs (handler m')
  | o => o
  end.

(** ** Integers, loops and buffers *)

Definition INT_MIN : Z := - 2 ^ 31.
Definition INT_MAX : Z := 2 ^ 31 - 1.

(** The value of an [int] expression: signed overflow is undefined. *)
Definition int (z : Z) : M Z :=
  if (INT_MIN <=? z) && (z <=? INT_MAX) then mret z else undefined.

(** [return m_array.size();] from a function that returns [int]: the size
    when it is representable, and the size reduced modulo [2^32] into the
    range of [int] otherwise (the conversion C++20 prescribes, and the one
    the compilers made before it). *)
Definition to_int (z : Z) : Z := (z + 2 ^ 31) mod 2 ^ 32 - 2 ^ 31.

Fixpoint iterate {L} (n : nat) (i : Z) (body : Z → L → M L) (acc : L) : M L :=
  match n with
  | O => mret acc
  | S n' => acc' ← body i acc; iterate n' (i + 1) body acc'
  end.

(** [for (int i = first; i != stop; ++i) body], threading the locals [acc]
    that the body assigns.  With [stop < first] the counter cannot meet
    [stop] without overflowing, and no body in this file leaves its loop
    early: the execution is undefined, at an index in the body or at the
    overflow. *)
Definition for_ne {L} (first stop : Z) (body : Z → L → M L) (acc : L) : M L :=
  if first <=? stop then iterate (Z.to_nat (stop - first)) first body acc
  else undefined.

(** [for (x : xs) body] *)
Fixpoint for_each {X} (xs : list X) (body : X → M unit) : M unit :=
  match xs with
  | [] => mret tt
  | x :: xs' => body x;; for_each xs' body
  end.

(** [v[i]] on a [std::vector] or a C array: no bounds check. *)
Definition at_index {X} (v : list X) (i : Z) : M X :=
  if (0 <=? i) && (i <? Z.of_nat (length v))
  then match v !! Z.to_nat i with Some x => mret x | None => undefined end
  else undefined.

Definition array_size : M Z := m ← get; mret (Z.of_nat (length (m_array m))).

(** [m_array[i]] read *)
Definition array_at (i : Z) : M jl_value := m ← get; at_index (m_array m) i.

(** [m_array[i] = x] *)
Definition array_assign (i : Z) (x : jl_value) : M unit :=
  m ← get;
  if (0 <=? i) && (i <? Z.of_nat (length (m_array m)))
  then modify (with_array (<[Z.to_nat i := x]> (m_array m)))
  else undefined.

Definition push_back (x : jl_value) : M unit :=
  modify (λ m, with_array (m_array m ++ [x]) m).

Definition jl_array_del_end (n : Z) : M unit :=
  m ← get;
  if (0 <=? n) && (n <=? Z.of_nat (length (m_array m)))
  then modify (with_array (take (length (m_array m) - Z.to_nat n)%nat (m_array m)))
  else undefined.

(** [JL_GC_PUSHARGS(buf, n)]: [n] rooted slots, zeroed. *)
Definition JL_GC_PUSHARGS (n : Z) : M (list (option jl_value)) :=
  if 0 <=? n then mret (replicate (Z.to_nat n) None) else undefined.

(** [buf[i] = x] *)
Definition buffer_assign (buf : list (option jl_value)) (i : Z) (x : jl_value)
    : M (list (option jl_value)) :=
  if (0 <=? i) && (i <? Z.of_nat (length buf))
  then mret (<[Z.to_nat i := Some x]> buf)
  else undefined.

(** [buf[i]] read, to be stored in [m_array]. *)
Definition buffer_at (buf : list (option jl_value)) (i : Z) : M jl_value :=
  p ← at_index buf i;
  match p with Some x => mret x | None => undefined end.

(** [x >= m_array.size()] and [x > m_array.size()] for an [int x]. *)
Definition ge_size (x n : Z) : bool :=
  if size_is_unsigned then (x <? 0) || (n <=? x) else n <=? x.
Definition gt_size (x n : Z) : bool :=
  if size_is_unsigned then (x <? 0) || (n <? x) else n <? x.

(** ** [QHash<int, QByteArray> m_rolenames] *)

Definition rolenames_size (m : ListModel) : Z := Z.of_nat (size (m_rolenames m)).

(** [m_rolenames.values().contains(name)] *)
Definition rolenames_contains (name : string) (m : ListModel) : bool :=
  bool_decide (name ∈ (map_to_list (m_rolenames m)).*2).

(** [m_rolenames.key(name)]: a key that holds [name] (the first one the map
    enumerates; [addrole] keeps the names distinct), and a
    default-constructed key, [0], when none does. *)
Definition rolenames_key (name : string) (m : ListModel) : Z :=
  match filter (λ kv : Z * string, kv.2 = name) (map_to_list (m_rolenames m)) with
  | (k, _) :: _ => k
  | [] => 0
  end.

(** [m_rolenames[k]] on the non-const hash: a missing key is inserted with a
    default-constructed name. *)
Definition rolenames_index (k : Z) : M string :=
  m ← get;
  match m_rolenames m !! k with
  | Some name => mret name
  | None => modify (with_rolenames (<[k := ""%string]> (m_rolenames m)));; mret ""%string
  end.

(** ** Construction and destruction *)

(** Modelled from the spec: the initializers of [m_constructor] and
    [m_custom_roles] are in listmodel.hpp, which is not among the sources.
    The constructor callable is optional and absent until [setconstructor]
    registers one, and the default role set is in place until the first
    custom role is added; [append_list] and [addrole] test the two fields
    ([m_constructor == nullptr], [!m_custom_roles]) before anything assigns
    them. *)
Definition initial_constructor : option jl_function := None.
Definition initial_custom_roles : bool := false.

(** [ListModel::ListModel(array, f, parent)]: the fields and the pins taken. *)
Definition new_ListModel (array : list jl_value) (f : option jl_function)
    : ListModel * list event :=
  (mkListModel array f initial_constructor {[ 0 := "string"%string ]}
     [Some string_fn] [None] initial_custom_roles,
   protect_from_gc ArrayPtr ::
   match f with Some _ => [protect_from_gc (FunPtr f)] | None => [] end).

(** [ListModel::~ListModel()] *)
Definition delete_ListModel : M unit :=
  m ← get;
  emit (unprotect_from_gc ArrayPtr);;
  match m_update_array m with
  | Some f => emit (unprotect_from_gc (FunPtr (Some f)))
  | None => mret tt
  end;;
  for_each (m_getters m) (λ f, emit (unprotect_from_gc (FunPtr f)));;
  for_each (m_setters m) (λ f,
    match f with
    | Some _ => emit (unprotect_from_gc (FunPtr f))
    | None => mret tt
    end).

(** ** Role accessors *)

(** [cxx_wrap::JuliaFunction(p)]: refuses a null pointer with a
    [std::runtime_error], the one [setData] catches. *)
Definition JuliaFunction (p : option jl_function) : M jl_function :=
  match p with Some f => mret f | None => throw end.

Definition rolegetter (role : Z) : M jl_function :=
  m ← get;
  if (role <? 0) || (rolenames_size m <=? role)
  then emit (qWarning (GetterRoleOutOfRange role));; mret string_fn
  else p ← at_index (m_getters m) role; JuliaFunction p.

Definition rolesetter (role : Z) : M jl_function :=
  m ← get;
  (if (role <? 0) || (rolenames_size m <=? role)
   then emit (qWarning (SetterRoleOutOfRange role))
   else mret tt);;
  p ← at_index (m_setters m) role;
  JuliaFunction p.

(** [do_update()]: the hook is a call into Julia without arguments; it is
    recorded, and does not re-enter the model. *)
Definition do_update : M unit :=
  m ← get;
  match m_update_array m with
  | Some f => emit (jl_call0 f)
  | None => mret tt
  end.

(** [do_update(index, count, roles)] *)
Definition do_update_cells (index count : Z) (roles : list Z) : M unit :=
  do_update;;
  emit (dataChanged index (index + count - 1) roles).

(** ** The view-model protocol *)

Definition rowCount : M Z := n ← array_size; mret (to_int n).

Definition count : M Z := n ← array_size; mret (to_int n).

(** [data(index, role)], with [row = index.row()]. *)
Definition data (row role : Z) : M QVariant :=
  n ← array_size;
  if (row <? 0) || ge_size row n
  then emit (qWarning (RowOutOfRange row));; mret QVariant_invalid
  else
    f ← rolegetter role;
    item ← array_at row;
    mret (convert_to_cpp (jl_call f [item])).

(** The call [setter(m_array.wrapped(), v, pos)]: Julia mutates the array. *)
Definition invoke_setter (f : jl_function) (v : jl_value) (pos : Z) : M unit :=
  emit (setter_called f v pos);;
  modify (λ m, with_array (call_setter f (m_array m) v pos) m).

(** [setData(index, value, role)], with [row = index.row()]. *)
Definition setData (row : Z) (value : QVariant) (role : Z) : M bool :=
  n ← array_size;
  if (row <? 0) || ge_size row n
  then emit (qWarning (RowOutOfRange row));; mret false
  else
    try_catch
      (f ← rolesetter role;
       invoke_setter f (box value) (row + 1);;
       do_update_cells row 1 [role];;
       mret true)
      (name ← rolenames_index role;
       emit (qWarning (NullSetter name));;
       mret false).

(** ** Mutations *)

Definition append_list (argvariants : list QVariant) : M unit :=
  m ← get;
  match m_constructor m with
  | None => emit (qWarning NoConstructor)
  | Some c =>
      match jl_call c (convert_to_julia <$> argvariants) with
      | None => emit (qWarning (AppendError argvariants))
      | Some result =>
          n ← array_size;
          emit (beginInsertRows n n);;
          push_back result;;
          do_update;;
          emit endInsertRows;;
          emit countChanged
      end
  end.

Definition append (record : QJSValue) : M unit :=
  match record with
  | JSArray items => append_list items
  | JSObject props =>
      m ← get;
      argvariants ← for_ne 0 (rolenames_size m) (λ i args,
        rolename ← rolenames_index i;
        match props !! rolename with
        | Some v => mret (args ++ [v])
        | None => mret args
        end) [];
      append_list argvariants
  end.

Definition remove (index : Z) : M unit :=
  n ← array_size;
  if (index <? 0) || ge_size index n
  then emit (qWarning (RowOutOfRange index))
  else
    emit (beginRemoveRows index index);;
    nb_elems ← array_size;
    for_ne index (nb_elems - 1) (λ i _,
      x ← array_at (i + 1); array_assign i x) tt;;
    jl_array_del_end 1;;
    do_update;;
    emit endRemoveRows;;
    emit countChanged.

(** The first lines of [move]: a move towards the front is rewritten as the
    move of the block in between towards the back. *)
Definition normalize (from to count : Z) : M (Z * Z * Z) :=
  if to <? from
  then c ← int (from - to); to' ← int (to + count); mret (to, to', c)
  else mret (from, to, count).

(** The guard of [move], on the normalized arguments: [true] rejects.  The
    disjunction stops at its first true operand, so [to + count] is computed
    only when the four tests before it fail. *)
Definition out_of_bounds (from to count : Z) : M bool :=
  n ← array_size;
  if (from <? 0) || ge_size from n || (to <? 0) || ge_size to n
  then mret true
  else s ← int (to + count); mret (gt_size s n).

(** The save, shift and place loops of [move]. *)
Definition shift_block (from to count : Z) : M unit :=
  removed_elems ← JL_GC_PUSHARGS count;
  removed_elems ← for_ne 0 count (λ i buf,
    x ← array_at (from + i); buffer_assign buf i x) removed_elems;
  for_ne from to (λ i _,
    x ← array_at (i + count); array_assign i x) tt;;
  for_ne 0 count (λ i _,
    x ← buffer_at removed_elems i; array_assign (to + i) x) tt.

Definition move (from to count : Z) : M unit :=
  if (from =? to) || (count =? 0) then mret tt
  else
    '(from, to, count) ← normalize from to count;
    reject ← out_of_bounds from to count;
    if reject : bool then emit (qWarning InvalidMove)
    else
      e ← int (from + count);
      last ← int (e - 1);
      dest ← int (to + count);
      emit (beginMoveRows from last dest);;
      shift_block from to count;;
      do_update;;
      emit endMoveRows.

Definition insert (index : Z) (record : QJSValue) : M unit :=
  append record;;
  n ← array_size;
  move (n - 1) index 1.

Definition insert_list (index : Z) (argvariants : list QVariant) : M unit :=
  append_list argvariants;;
  n ← array_size;
  move (n - 1) index 1.

Definition setProperty (index : Z) (property : string) (value : QVariant) : M unit :=
  m ← get;
  setData index value (rolenames_key property m);;
  mret tt.

Definition clear : M unit :=
  n ← array_size;
  emit (beginRemoveRows 0 n);;
  n' ← array_size;
  jl_array_del_end n';;
  do_update;;
  emit endRemoveRows.

(** ** The role registry *)

Definition addrole (name : string) (getter setter : option jl_function) : M unit :=
  m ← get;
  if rolenames_contains name m then emit (qWarning (RoleExists name))
  else
    match getter with
    | None => emit (qWarning (InvalidGetter name))
    | Some _ =>
        (if m_custom_roles m then mret tt
         else modify (with_roles ∅ [] [] true));;
        emit (protect_from_gc (FunPtr getter));;
        match setter with
        | Some _ => emit (protect_from_gc (FunPtr setter))
        | None => mret tt
        end;;
        modify (λ m, with_roles (<[rolenames_size m := name]> (m_rolenames m))
                       (m_getters m ++ [getter]) (m_setters m ++ [setter])
                       (m_custom_roles m) m);;
        emit rolesChanged
    end.

Definition setconstructor (constructor : option jl_function) : M unit :=
  modify (with_constructor constructor);;
  emit (protect_from_gc (FunPtr constructor)).

(** [m_getters[i]] and [m_setters[i]], read and assigned; [resize] to a
    smaller size; [m_rolenames[k] = name] and [m_rolenames.remove(k)]. *)
Definition getters_at (i : Z) : M (option jl_function) :=
  m ← get; at_index (m_getters m) i.

Definition setters_at (i : Z) : M (option jl_function) :=
  m ← get; at_index (m_setters m) i.

Definition getters_assign (i : Z) (p : option jl_function) : M unit :=
  m ← get;
  if (0 <=? i) && (i <? Z.of_nat (length (m_getters m)))
  then modify (λ m, with_roles (m_rolenames m) (<[Z.to_nat i := p]> (m_getters m))
                      (m_setters m) (m_custom_roles m) m)
  else undefined.

Definition setters_assign (i : Z) (p : option jl_function) : M unit :=
  m ← get;
  if (0 <=? i) && (i <? Z.of_nat (length (m_setters m)))
  then modify (λ m, with_roles (m_rolenames m) (m_getters m)
                      (<[Z.to_nat i := p]> (m_setters m)) (m_custom_roles m) m)
  else undefined.

Definition resize {X} (n : Z) (v : list X) (filler : X) : M (list X) :=
  if 0 <=? n then mret (take (Z.to_nat n) v ++ replicate (Z.to_nat n - length v) filler)
  else undefined.

Definition getters_resize (n : Z) : M unit :=
  m ← get;
  v ← resize n (m_getters m) None;
  modify (λ m, with_roles (m_rolenames m) v (m_setters m) (m_custom_roles m) m).

Definition setters_resize (n : Z) : M unit :=
  m ← get;
  v ← resize n (m_setters m) None;
  modify (λ m, with_roles (m_rolenames m) (m_getters m) v (m_custom_roles m) m).

Definition rolenames_assign (k : Z) (name : string) : M unit :=
  modify (λ m, with_rolenames (<[k := name]> (m_rolenames m)) m).

Definition rolenames_remove (k : Z) : M unit :=
  modify (λ m, with_rolenames (delete k (m_rolenames m)) m).

(** [setrole(idx, name, getter, setter)] *)
Definition setrole (idx : Z) (name : string) (getter setter : option jl_function)
    : M unit :=
  m ← get;
  if ge_size idx (Z.of_nat (length (m_getters m))) || (idx <? 0)
  then emit (qWarning (SetroleIndexOutOfRange idx))
  else if rolenames_contains name m && negb (rolenames_key name m =? idx)
  then emit (qWarning (SetroleRoleExists name))
  else
    match getter with
    | None => emit (qWarning (SetroleInvalidGetter name))
    | Some _ =>
        g ← getters_at idx;
        emit (unprotect_from_gc (FunPtr g));;
        s ← setters_at idx;
        match s with
        | Some _ => emit (unprotect_from_gc (FunPtr s))
        | None => mret tt
        end;;
        emit (protect_from_gc (FunPtr getter));;
        match setter with
        | Some _ => emit (protect_from_gc (FunPtr setter))
        | None => mret tt
        end;;
        getters_assign idx getter;;
        setters_assign idx setter;;
        current ← rolenames_index idx;
        if bool_decide (current = name)
        then n ← array_size; emit (dataChanged 0 (n - 1) [idx])
        else rolenames_assign idx name;; emit rolesChanged
    end.

(** [removerole(const int idx)].  In [m_rolenames[i] = m_rolenames[i+1]]
    both sides go through the non-const [operator[]]; the model reads the
    right-hand side, then assigns. *)
Definition removerole (idx : Z) : M unit :=
  m ← get;
  if bool_decide (is_Some (m_rolenames m !! idx))
  then
    g ← getters_at idx;
    emit (unprotect_from_gc (FunPtr g));;
    s ← setters_at idx;
    match s with
    | Some _ => emit (unprotect_from_gc (FunPtr s))
    | None => mret tt
    end;;
    nb_roles ← (m ← get; mret (Z.of_nat (length (m_getters m))));
    for_ne idx (nb_roles - 1) (λ i _,
      g ← getters_at (i + 1); getters_assign i g;;
      s ← setters_at (i + 1); setters_assign i s;;
      name ← rolenames_index (i + 1); rolenames_assign i name) tt;;
    getters_resize (nb_roles - 1);;
    setters_resize (nb_roles - 1);;
    rolenames_remove (nb_roles - 1);;
    emit rolesChanged
  else emit (qWarning RemoveNonExistingRole).

(** [removerole(const std::string& name)] *)
Definition removerole_by_name (name : string) : M unit :=
  m ← get;
  if rolenames_contains name m then removerole (rolenames_key name m)
  else emit (qWarning (RolenameNotFound name)).

(** [roles()]: a const member, so [m_rolenames[i]] is the value of a key or
    a default-constructed name, and nothing is inserted. *)
Definition roles : M (list string) :=
  m ← get;
  for_ne 0 (rolenames_size m) (λ i rolelist,
    mret (rolelist ++ [default ""%string (m_rolenames m !! i)])) [].

(** [roleNames()] *)
Definition roleNames : M (gmap Z string) := m ← get; mret (m_rolenames m).

End Model.

Arguments Returns {H A} a m evs.
Arguments Throws {H A} m evs.
Arguments Undefined {H A}.
Arguments JSArray {H} & items.
Arguments JSObject {H} & props.
Arguments FunPtr {H} & f.
Arguments protect_from_gc {H} & p.
Arguments unprotect_from_gc {H} & p.
Arguments jl_call0 {H} & f.
Arguments setter_called {H} & f v pos.
Arguments qWarning {H} & w.
Arguments AppendError {H} & args.

(** ** A small host to run the model on

    Julia values are integers.  [fn_string] and [fn_get] return their
    argument, [fn_make] returns its first argument and raises without one,
    [fn_set] stores the value at the 1-based position it is given. *)
Inductive demo_fn := fn_string | fn_get | fn_set | fn_make | fn_hook.

Definition demo_call (f : demo_fn) (args : list Z) : option Z :=
  match f, args with
  | (fn_string | fn_get | fn_make), x :: _ => Some x
  | _, _ => None
  end.

Definition demo_setter (f : demo_fn) (a : list Z) (v : Z) (pos : Z) : list Z :=
  match f with
  | fn_set => <[Z.to_nat (pos - 1) := v]> a
  | _ => a
  end.

#[local] Instance demo_host (unsigned_size : bool) : Host := {|
  jl_value := Z;
  jl_function := demo_fn;
  QVariant := Z;
  string_fn := fn_string;
  jl_call := demo_call;
  call_setter := demo_setter;
  convert_to_cpp := default (-1);
  convert_to_julia := id;
  box := id;
  QVariant_invalid := -1;
  size_is_unsigned := unsigned_size
|}.

(** A freshly constructed model over the given items, without update hook. *)
Definition demo_model (u : bool) (items : list Z) : @ListModel (demo_host u) :=
  (@new_ListModel (demo_host u) items None).1.

(** A freshly constructed model with [fn_hook] as update hook. *)
Definition demo_hooked_model (u : bool) (items : list Z) : @ListModel (demo_host u) :=
  (@new_ListModel (demo_host u) items (Some fn_hook)).1.

(** The model without hook once [addrole("name", fn_get, fn_set)] has
    replaced the default role. *)
Definition demo_named_model (u : bool) (items : list Z) : @ListModel (demo_host u) :=
  with_roles (H := demo_host u) {[ 0 := "name"%string ]} [Some fn_get] [Some fn_set] true
    (demo_model u items).

(** ... and once [setconstructor(fn_make)] has run on it. *)
Definition demo_growing_model (u : bool) (items : list Z) : @ListModel (demo_host u) :=
  with_constructor (H := demo_host u) (Some fn_make) (demo_named_model u items).

(** ** Vocabulary of the properties *)

Section Vocabulary.
Context {H : Host}.

(** The registry a fresh model holds: the single role "string", read by
    Julia's [string], without setter. *)
Definition holds_default_roles (m : ListModel) : Prop :=
  m_custom_roles m = false ∧
  m_rolenames m = {[ 0 := "string"%string ]} ∧
  m_getters m = [Some string_fn] ∧
  m_setters m = [None].

(** Role ids are [0 .. n-1], with one non-null getter and one setter slot
    each. *)
Definition dense_roles (m : ListModel) : Prop :=
  (∀ k : Z, is_Some (m_rolenames m !! k) ↔ 0 ≤ k < Z.of_nat (length (m_getters m))) ∧
  size (m_rolenames m) = length (m_getters m) ∧
  length (m_setters m) = length (m_getters m) ∧
  Forall is_Some (m_getters m).

(** [move]'s guard lets the call through. *)
Definition accepts_move (from to count : Z) (m : ListModel) : Prop :=
  ∃ f t c, normalize from to count m = Returns (f, t, c) m [] ∧
           out_of_bounds f t c m = Returns false m [].

(** Where the element at position [k] after an accepted move, on normalized
    arguments, comes from. *)
Definition source_index (from to count k : Z) : Z :=
  if bool_decide (to ≤ k < to + count) then from + (k - to)
  else if bool_decide (from ≤ k < to) then k + count
  else k.

(** An [int] expression whose value is representable. *)
Definition in_int (z : Z) : Prop := INT_MIN ≤ z ≤ INT_MAX.

(** The argument list [append] hands to the constructor: the items of an
    array; for an object, the values of the properties named by the roles,
    in role order, skipping the roles the object lacks. *)
Definition positional (record : QJSValue) (m : ListModel) : list QVariant :=
  match record with
  | JSArray items => items
  | JSObject props =>
      omap (λ i : nat, m_rolenames m !! Z.of_nat i ≫= λ name, props !! name)
           (seq 0 (size (m_rolenames m)))
  end.

(** What [do_update()] emits. *)
Definition hook_events (m : ListModel) : list event :=
  match m_update_array m with
  | Some f => [jl_call0 f]
  | None => []
  end.

(** No two role ids hold the same name. *)
Definition distinct_names (m : ListModel) : Prop :=
  ∀ j k name, m_rolenames m !! j = Some name → m_rolenames m !! k = Some name → j = k.

(** The registry invariant: dense ids and distinct names. *)
Definition roles_well_formed (m : ListModel) : Prop :=
  dense_roles m ∧ distinct_names m.

(** The names of the roles in id order, as [roles()] reads them. *)
Definition role_names (m : ListModel) : list string :=
  (λ i : nat, default ""%string (m_rolenames m !! Z.of_nat i)) <$>
    seq 0 (size (m_rolenames m)).

(** What [if (p != nullptr) protect_from_gc(p)] and its [unprotect_from_gc]
    twin emit. *)
Definition pin_events (p : option jl_function) : list event :=
  match p with
  | Some _ => [protect_from_gc (FunPtr p)]
  | None => []
  end.

Definition unpin_events (p : option jl_function) : list event :=
  match p with
  | Some _ => [unprotect_from_gc (FunPtr p)]
  | None => []
  end.

(** The calls that edit the role registry, and a sequence of them run in
    order. *)
Inductive registry_call :=
| call_addrole (name : string) (getter setter : option jl_function)
| call_setrole (idx : Z) (name : string) (getter setter : option jl_function)
| call_removerole (idx : Z)
| call_removerole_by_name (name : string).

Definition run_call (c : registry_call) : M unit :=
  match c with
  | call_addrole name getter setter => addrole name getter setter
  | call_setrole idx name getter setter => setrole idx name getter setter
  | call_removerole idx => removerole idx
  | call_removerole_by_name name => removerole_by_name name
  end.

Fixpoint run_calls (cs : list registry_call) : M unit :=
  match cs with
  | [] => mret tt
  | c :: cs' => run_call c;; run_calls cs'
  end.

(** The pointers an event list pins and the ones it releases, in order and
    with repetitions. *)
Definition protected (evs : list event) : list jl_ptr :=
  omap (λ e, match e with protect_from_gc p => Some p | _ => None end) evs.

Definition released (evs : list event) : list jl_ptr :=
  omap (λ e, match e with unprotect_from_gc p => Some p | _ => None end) evs.

(** The pointers the destructor releases on behalf of the registry: every
    getter and every non-null setter. *)
Definition non_null (l : list (option jl_function)) : list (option jl_function) :=
  filter (λ p : option jl_function, is_Some p) l.

Definition role_pins (m : ListModel) : list jl_ptr :=
  FunPtr <$> (m_getters m ++ non_null (m_setters m)).

(** The events [evs] that lead from [m] to [m'] pin what the registry
    gains and release what it loses. *)
Definition pins_kept (m : ListModel) (evs : list event) (m' : ListModel) : Prop :=
  protected evs ++ role_pins m ≡ₚ released evs ++ role_pins m'.

End Vocabulary.

(** ** More inputs for the small host *)

(** The model once [addrole("age", fn_string, nullptr)] has added a second
    role to [demo_named_model]. *)
Definition demo_two_role_model (u : bool) (items : list Z) : @ListModel (demo_host u) :=
  with_roles (H := demo_host u) (<[1 := "age"%string]> {[ 0 := "name"%string ]})
    [Some fn_get; Some fn_string] [Some fn_set; None] true (demo_model u items).

(** A session on the registry: two roles added, the first one renamed, one
    removed by name, and a removal of a role that does not exist. *)
Definition demo_calls (u : bool) : list (@registry_call (demo_host u)) :=
  [call_addrole (H := demo_host u) "name" (Some fn_get) None;
   call_addrole (H := demo_host u) "age" (Some fn_get) (Some fn_set);
   call_setrole (H := demo_host u) 0 "id" (Some fn_string) None;
   call_removerole_by_name (H := demo_host u) "age";
   call_removerole (H := demo_host u) 5].

(** * Properties *)

Section Properties.
Context {H : Host}.
Implicit Types (m : ListModel) (evs : list event).

(** *** The monad *)

Lemma after_nil {A} (o : outcome A) : after [] o = o.
Proof. by destruct o. Qed.

Lemma bind_Returns {A B} (x : M A) (k : A → M B) m a m' evs :
  x m = Returns a m' evs → (x ≫= k) m = after evs (k a m').
Proof. unfold mbind, M_bind. by intros ->. Qed.

Lemma ret_bind {A B} (a : A) (k : A → M B) m : (mret a ≫= k) m = k a m.
Proof. unfold mbind, M_bind, mret, M_ret. apply after_nil. Qed.

Lemma with_array_id m : with_array (m_array m) m = m.
Proof. by destruct m. Qed.

Lemma with_array_twice a b m : with_array a (with_array b m) = with_array a m.
Proof. done. Qed.

(** *** Loops, buffers and integers *)

Lemma iterate_rule {L} (Inv : Z → L → ListModel → Prop) (body : Z → L → M L) n :
  ∀ i acc m,
  Inv i acc m →
  (∀ j acc m, i ≤ j < i + Z.of_nat n → Inv j acc m →
     ∃ acc' m', body j acc m = Returns acc' m' [] ∧ Inv (j + 1) acc' m') →
  ∃ acc' m', iterate n i body acc m = Returns acc' m' [] ∧
             Inv (i + Z.of_nat n) acc' m'.
Proof.
  induction n as [| n IH]; intros i acc m Hinv Hstep.
  - exists acc, m. split; [done |]. by replace (i + Z.of_nat 0) with i by lia.
  - destruct (Hstep i acc m) as (acc1 & m1 & Hbody & Hinv1); [lia | done |].
    destruct (IH (i + 1) acc1 m1 Hinv1) as (acc2 & m2 & Hrest & Hinv2).
    { intros j ? ? ? ?. apply Hstep; [lia | done]. }
    exists acc2, m2. split.
    + simpl. rewrite (bind_Returns _ _ _ _ _ _ Hbody). by rewrite after_nil.
    + by replace (i + Z.of_nat (S n)) with (i + 1 + Z.of_nat n) by lia.
Qed.

Lemma for_ne_rule {L} (Inv : Z → L → ListModel → Prop) (body : Z → L → M L)
    first stop acc m :
  first ≤ stop →
  Inv first acc m →
  (∀ j acc m, first ≤ j < stop → Inv j acc m →
     ∃ acc' m', body j acc m = Returns acc' m' [] ∧ Inv (j + 1) acc' m') →
  ∃ acc' m', for_ne first stop body acc m = Returns acc' m' [] ∧ Inv stop acc' m'.
Proof.
  intros Hle Hinv Hstep. unfold for_ne.
  replace (first <=? stop) with true by lia.
  destruct (iterate_rule Inv body (Z.to_nat (stop - first)) first acc m Hinv)
    as (acc' & m' & Hrun & Hinv').
  { intros j ? ? ? ?. apply Hstep; [lia | done]. }
  exists acc', m'. split; [done |].
  by replace stop with (first + Z.of_nat (Z.to_nat (stop - first))) at 1 by lia.
Qed.

Lemma at_index_lookup {X} (v : list X) i x m :
  0 ≤ i → v !! Z.to_nat i = Some x → at_index v i m = Returns x m [].
Proof.
  intros Hi Hx. unfold at_index. rewrite Hx.
  apply lookup_lt_Some in Hx.
  case_match; [done | lia].
Qed.

Lemma array_at_lookup m i x :
  0 ≤ i → m_array m !! Z.to_nat i = Some x → array_at i m = Returns x m [].
Proof.
  intros Hi Hx. unfold array_at. rewrite (bind_Returns _ _ m m m []); [| done].
  rewrite after_nil. by apply at_index_lookup.
Qed.

Lemma array_assign_in_range m i x :
  0 ≤ i < Z.of_nat (length (m_array m)) →
  array_assign i x m = Returns tt (with_array (<[Z.to_nat i := x]> (m_array m)) m) [].
Proof.
  intros Hi. unfold array_assign. rewrite (bind_Returns _ _ m m m []); [| done].
  rewrite after_nil. by replace ((0 <=? i) && (i <? Z.of_nat (length (m_array m)))) with true by lia.
Qed.

Lemma int_in_range z m : in_int z → int z m = Returns z m [].
Proof.
  unfold in_int, int. intros ?.
  by replace ((INT_MIN <=? z) && (z <=? INT_MAX)) with true by lia.
Qed.

Lemma to_int_in_range z : in_int z → to_int z = z.
Proof.
  unfold in_int, INT_MIN, INT_MAX, to_int. intros Hz.
  rewrite Z.mod_small by lia. lia.
Qed.

Lemma count_in_range m :
  Z.of_nat (length (m_array m)) ≤ INT_MAX →
  count m = Returns (Z.of_nat (length (m_array m))) m [] ∧
  rowCount m = Returns (Z.of_nat (length (m_array m))) m [].
Proof.
  intros Hn. unfold count, rowCount, array_size, mbind, M_bind, get. simpl.
  rewrite to_int_in_range; [done |]. unfold in_int, INT_MIN, INT_MAX in *. lia.
Qed.

Lemma int_Returns z m z' m' evs :
  int z m = Returns z' m' evs → in_int z ∧ z' = z ∧ m' = m ∧ evs = [].
Proof.
  unfold in_int, int. case_match; [| done].
  intros [= <- <- <-]. split; [lia | done].
Qed.

Lemma ge_size_in_range x n : 0 ≤ x < n → ge_size x n = false.
Proof. intros. unfold ge_size. destruct size_is_unsigned; lia. Qed.

Lemma do_update_events m : do_update m = Returns tt m (hook_events m).
Proof.
  unfold do_update, hook_events, mbind, M_bind, get.
  by destruct (m_update_array m).
Qed.

Lemma hook_events_no_warning m w : qWarning w ∉ hook_events m.
Proof.
  unfold hook_events. destruct (m_update_array m).
  - by intros [=]%list_elem_of_singleton.
  - apply not_elem_of_nil.
Qed.

(** *** The role registry *)

Lemma rolenames_contains_lookup m k name :
  m_rolenames m !! k = Some name → rolenames_contains name m = true.
Proof.
  intros Hk. unfold rolenames_contains. apply bool_decide_eq_true.
  apply list_elem_of_fmap. exists (k, name). split; [done |].
  by apply elem_of_map_to_list.
Qed.

Lemma addrole_existing_name m k name getter setter :
  m_rolenames m !! k = Some name →
  addrole name getter setter m = Returns tt m [qWarning (RoleExists name)].
Proof.
  intros Hk. unfold addrole, mbind, M_bind, get.
  by rewrite (rolenames_contains_lookup _ _ _ Hk).
Qed.

Theorem addrole_string_on_default_roles m getter setter :
  holds_default_roles m →
  addrole "string" getter setter m = Returns tt m [qWarning (RoleExists "string")].
Proof.
  intros (_ & Hr & _ & _). apply (addrole_existing_name m 0).
  by rewrite Hr.
Qed.

(** The registry stays dense: it is when the model is constructed, and
    [addrole] keeps it so. *)
Lemma new_ListModel_dense array f : dense_roles (new_ListModel array f).1.
Proof.
  split; [| split; [| split]]; simpl.
  - intros k. split.
    + intros [x Hx]. apply lookup_singleton_Some in Hx. lia.
    + intros ?. assert (k = 0) as -> by lia. by rewrite lookup_singleton_eq.
  - apply map_size_singleton.
  - done.
  - by repeat constructor.
Qed.

Lemma addrole_dense m name getter setter m' evs :
  dense_roles m →
  addrole name getter setter m = Returns tt m' evs →
  dense_roles m'.
Proof.
  intros Hd. unfold addrole, mbind, M_bind, get.
  destruct (rolenames_contains name m); [by intros [= <- _] |].
  destruct getter as [g |]; [| by intros [= <- _]].
  assert (∃ m0, dense_roles m0 ∧
    (if m_custom_roles m then mret tt else modify (with_roles ∅ [] [] true)) m
      = Returns tt m0 []) as (m0 & Hd0 & ->).
  { destruct (m_custom_roles m); eexists; (split; [| done]); [done |].
    split; [| split; [| split]]; simpl; try done.
    intros k. rewrite lookup_empty. split; [by intros [] | lia]. }
  simpl.
  assert (Hgrow : ∀ s, dense_roles
    (with_roles (<[rolenames_size m0 := name]> (m_rolenames m0))
       (m_getters m0 ++ [Some g]) (m_setters m0 ++ [s]) (m_custom_roles m0) m0)).
  { intros s. destruct Hd0 as (Hdom & Hsize & Hlen & Hall).
    split; [| split; [| split]]; simpl.
    - intros k. rewrite length_app. simpl. unfold rolenames_size. split.
      + intros [x Hx]. apply lookup_insert_Some in Hx as [[<- _] | [_ Hx]]; [lia |].
        apply mk_is_Some, Hdom in Hx. lia.
      + intros Hk. destruct (decide (Z.of_nat (size (m_rolenames m0)) = k)) as [-> | Hne].
        * by rewrite lookup_insert_eq.
        * rewrite lookup_insert_ne by done. apply Hdom. lia.
    - rewrite map_size_insert_None; [rewrite length_app; simpl; lia |].
      apply eq_None_not_Some. intros Hs. apply Hdom in Hs.
      unfold rolenames_size in Hs. lia.
    - rewrite !length_app. simpl. lia.
    - apply Forall_app. split; [done | by repeat constructor]. }
  destruct setter; simpl; intros [= <- _]; apply Hgrow.
Qed.

Lemma dense_roles_registered m r :
  dense_roles m → 0 ≤ r < rolenames_size m →
  ∃ g, m_getters m !! Z.to_nat r = Some (Some g).
Proof.
  intros (_ & Hsize & _ & Hall) Hr. unfold rolenames_size in Hr.
  destruct (lookup_lt_is_Some_2 (m_getters m) (Z.to_nat r)) as [p Hp]; [lia |].
  destruct (proj1 (Forall_lookup _ _) Hall _ _ Hp) as [g ->]. by exists g.
Qed.

(** *** Reading and writing a cell *)

Lemma rolegetter_registered m role g :
  0 ≤ role < rolenames_size m →
  m_getters m !! Z.to_nat role = Some (Some g) →
  rolegetter role m = Returns g m [].
Proof.
  intros Hr Hg. unfold rolegetter, mbind, M_bind, get.
  replace ((role <? 0) || (rolenames_size m <=? role)) with false by lia.
  by rewrite (at_index_lookup _ _ _ _ (proj1 Hr) Hg).
Qed.

Lemma rolesetter_registered m role f :
  0 ≤ role < rolenames_size m →
  m_setters m !! Z.to_nat role = Some (Some f) →
  rolesetter role m = Returns f m [].
Proof.
  intros Hr Hf. unfold rolesetter, mbind, M_bind, get.
  replace ((role <? 0) || (rolenames_size m <=? role)) with false by lia. simpl.
  by rewrite (at_index_lookup _ _ _ _ (proj1 Hr) Hf).
Qed.

Lemma data_registered m row role g item :
  0 ≤ row →
  m_array m !! Z.to_nat row = Some item →
  0 ≤ role < rolenames_size m →
  m_getters m !! Z.to_nat role = Some (Some g) →
  data row role m = Returns (convert_to_cpp (jl_call g [item])) m [].
Proof.
  intros Hrow Hitem Hr Hg. unfold data, array_size, array_at, mbind, M_bind, get.
  simpl. pose proof (lookup_lt_Some _ _ _ Hitem).
  rewrite ge_size_in_range by lia.
  replace (row <? 0) with false by lia. simpl.
  rewrite (rolegetter_registered _ _ _ Hr Hg). simpl.
  by rewrite (at_index_lookup _ _ _ _ Hrow Hitem).
Qed.

Theorem setData_position_is_one_past_data_index m row role value f g :
  0 ≤ row < Z.of_nat (length (m_array m)) →
  0 ≤ role < rolenames_size m →
  m_setters m !! Z.to_nat role = Some (Some f) →
  m_getters m !! Z.to_nat role = Some (Some g) →
  setData row value role m =
    Returns true
      (with_array (call_setter f (m_array m) (box value) (row + 1)) m)
      (setter_called f (box value) (row + 1) ::
       hook_events m ++ [dataChanged row row [role]]) ∧
  ∃ item, m_array m !! Z.to_nat row = Some item ∧
          data row role m = Returns (convert_to_cpp (jl_call g [item])) m [].
Proof.
  intros Hrow Hr Hf Hg. split.
  - unfold setData, array_size, try_catch, mbind, M_bind, get. simpl.
    rewrite ge_size_in_range by done.
    replace (row <? 0) with false by lia. simpl.
    rewrite (rolesetter_registered _ _ _ Hr Hf). simpl.
    unfold do_update_cells, mbind, M_bind.
    rewrite do_update_events. simpl.
    replace (row + 1 - 1) with row by lia.
    by rewrite app_nil_r.
  - destruct (lookup_lt_is_Some_2 (m_array m) (Z.to_nat row)) as [item Hitem]; [lia |].
    exists item. split; [done |].
    apply data_registered; [lia | done..].
Qed.

(** *** [append] *)

Lemma append_list_constructs m c args item :
  m_constructor m = Some c →
  jl_call c (convert_to_julia <$> args) = Some item →
  append_list args m =
    Returns tt (with_array (m_array m ++ [item]) m)
      (beginInsertRows (Z.of_nat (length (m_array m))) (Z.of_nat (length (m_array m)))
       :: hook_events m ++ [endInsertRows; countChanged]).
Proof.
  intros Hc Hcall. unfold append_list, mbind, M_bind, get. rewrite Hc, Hcall.
  simpl. rewrite do_update_events. simpl. done.
Qed.

Lemma append_projects m record :
  dense_roles m →
  append record m = append_list (positional record m) m.
Proof.
  intros (Hdom & Hsize & _ & _). destruct record as [items | props]; [done |].
  unfold append. rewrite (bind_Returns _ _ m m m []), after_nil by done.
  destruct (for_ne_rule
    (λ j (args : list QVariant) m',
       m' = m ∧
       args = omap (λ i : nat, m_rolenames m !! Z.of_nat i ≫= λ name, props !! name)
                (seq 0 (Z.to_nat j)))
    (λ i args,
       rolename ← rolenames_index i;
       match props !! rolename with
       | Some v => mret (args ++ [v])
       | None => mret args
       end)
    0 (rolenames_size m) [] m) as (args & m1 & Hloop & -> & ->).
  - unfold rolenames_size. lia.
  - done.
  - intros j args m' Hj (-> & ->).
    destruct (proj2 (Hdom j)) as [name Hname]; [unfold rolenames_size in Hj; lia |].
    assert (Hidx : rolenames_index j m = Returns name m []).
    { unfold rolenames_index, mbind, M_bind, get. by rewrite Hname. }
    replace (Z.to_nat (j + 1)) with (S (Z.to_nat j)) by lia.
    rewrite seq_S, omap_app. simpl.
    replace (Z.of_nat (Z.to_nat j)) with j by lia. rewrite Hname. simpl.
    rewrite (bind_Returns _ _ _ _ _ _ Hidx), after_nil.
    destruct (props !! name); eexists _, m; split; try done.
    by rewrite app_nil_r.
  - rewrite (bind_Returns _ _ _ _ _ _ Hloop), after_nil.
    unfold positional, rolenames_size. by rewrite Nat2Z.id.
Qed.

(** C3. With a constructor registered and a record the constructor accepts
    (it returns [item] on the record's positional arguments), on a model of
    fewer than [INT_MAX] items (so that the new number of items is an
    [int], the type of [count()] and [rowCount()]), [append] appends
    [item]: [count()] goes from [n] to [n + 1], [rowCount()] is the same
    number, and for every registered role [r], [data] at the last row [n]
    is the converted result of [r]'s getter applied to [item]. *)
Theorem append_adds_constructed_item m c record item :
  dense_roles m →
  m_constructor m = Some c →
  jl_call c (convert_to_julia <$> positional record m) = Some item →
  Z.of_nat (length (m_array m)) < INT_MAX →
  let n := Z.of_nat (length (m_array m)) in
  let m' := with_array (m_array m ++ [item]) m in
  append record m =
    Returns tt m' (beginInsertRows n n :: hook_events m ++ [endInsertRows; countChanged]) ∧
  count m = Returns n m [] ∧
  count m' = Returns (n + 1) m' [] ∧
  rowCount m' = Returns (n + 1) m' [] ∧
  ∀ r, 0 ≤ r < rolenames_size m' →
    ∃ g, m_getters m' !! Z.to_nat r = Some (Some g) ∧
         data n r m' = Returns (convert_to_cpp (jl_call g [item])) m' [].
Proof.
  intros Hd Hc Hitem Hmax n m'.
  assert (Hn' : Z.of_nat (length (m_array m')) = n + 1).
  { subst n m'. simpl. rewrite length_app. simpl. lia. }
  destruct (count_in_range m ltac:(lia)) as [Hcount _].
  destruct (count_in_range m' ltac:(lia)) as [Hcount' HrowCount'].
  rewrite Hn' in Hcount', HrowCount'.
  split; [| split; [done | split; [done | split; [done |]]]].
  - rewrite (append_projects _ _ Hd). by apply (append_list_constructs _ c).
  - intros r Hr. destruct (dense_roles_registered m r Hd Hr) as [g Hg].
    exists g. split; [done |].
    apply data_registered; [lia | | done | done].
    subst n. simpl. rewrite Nat2Z.id. by apply list_lookup_middle.
Qed.

(** *** [clear] *)

(** C6. [clear] always returns, with an empty array, and emits exactly
    this: [beginRemoveRows(0, K)] for [K] items (the valid rows are
    [0 .. K-1]), the hook when there is one, and [endRemoveRows]; it emits
    no [countChanged]. *)
Theorem clear_emits m :
  clear m =
    Returns tt (with_array [] m)
      (beginRemoveRows 0 (Z.of_nat (length (m_array m))) ::
       hook_events m ++ [endRemoveRows]).
Proof.
  unfold clear, array_size, jl_array_del_end, mbind, M_bind, get. simpl.
  rewrite Z.leb_refl, andb_true_r.
  rewrite (proj2 (Z.leb_le 0 _)) by lia.
  simpl. rewrite do_update_events. simpl.
  by rewrite Nat2Z.id, Nat.sub_diag, take_0.
Qed.

(** *** [move] *)

Lemma shift_block_spec m from to count :
  0 ≤ from → from ≤ to → 0 ≤ count →
  to + count ≤ Z.of_nat (length (m_array m)) →
  ∃ a, shift_block from to count m = Returns tt (with_array a m) [] ∧
       length a = length (m_array m) ∧
       ∀ k : nat,
         a !! k = m_array m !! Z.to_nat (source_index from to count (Z.of_nat k)).
Proof.
  intros Hfrom Hft Hcount Hlen. unfold shift_block, JL_GC_PUSHARGS.
  replace (0 <=? count) with true by lia. rewrite ret_bind.
  destruct (for_ne_rule
    (λ j (buf : list (option jl_value)) m',
       m' = m ∧ length buf = Z.to_nat count ∧
       ∀ k : nat, Z.of_nat k < j →
         buf !! k = Some (m_array m !! Z.to_nat (from + Z.of_nat k)))
    (λ i buf, x ← array_at (from + i); buffer_assign buf i x)
    0 count (replicate (Z.to_nat count) None) m)
    as (buf & m1 & Hsave & -> & Hbuflen & Hbuf); [done | | |].
  { split; [done |]. split; [by rewrite length_replicate | intros; lia]. }
  { intros j buf m' Hj (-> & Hbl & Hb).
    destruct (lookup_lt_is_Some_2 (m_array m) (Z.to_nat (from + j))) as [x Hx]; [lia |].
    exists (<[Z.to_nat j := Some x]> buf), m. split.
    - rewrite (bind_Returns _ _ _ _ _ _ (array_at_lookup m (from + j) x ltac:(lia) Hx)).
      rewrite after_nil. unfold buffer_assign.
      by replace ((0 <=? j) && (j <? Z.of_nat (length buf))) with true by lia.
    - split; [done |]. split; [by rewrite length_insert |].
      intros k Hk. destruct (decide (k = Z.to_nat j)) as [-> | Hne].
      + rewrite list_lookup_insert_eq by lia. rewrite <- Hx. do 2 f_equal. lia.
      + rewrite list_lookup_insert_ne by done. apply Hb. lia. }
  rewrite (bind_Returns _ _ _ _ _ _ Hsave), after_nil.
  destruct (for_ne_rule
    (λ j (_ : unit) m',
       ∃ a, m' = with_array a m ∧ length a = length (m_array m) ∧
       ∀ k : nat,
         a !! k = if bool_decide (from ≤ Z.of_nat k < j)
                  then m_array m !! Z.to_nat (Z.of_nat k + count)
                  else m_array m !! k)
    (λ i (_ : unit), x ← array_at (i + count); array_assign i x)
    from to tt m)
    as ([] & m2 & Hshift & a1 & -> & Ha1len & Ha1); [done | | |].
  { exists (m_array m). split; [by rewrite with_array_id |]. split; [done |].
    intros k. case_bool_decide; [lia | done]. }
  { intros j [] m' Hj (a & -> & Halen & Ha).
    destruct (lookup_lt_is_Some_2 (m_array m) (Z.to_nat (j + count))) as [x Hx]; [lia |].
    assert (Hread : m_array (with_array a m) !! Z.to_nat (j + count) = Some x).
    { simpl. rewrite Ha. case_bool_decide; [lia |]. done. }
    exists tt, (with_array (<[Z.to_nat j := x]> a) m). split.
    - rewrite (bind_Returns _ _ _ _ _ _
        (array_at_lookup (with_array a m) (j + count) x ltac:(lia) Hread)).
      rewrite after_nil. rewrite array_assign_in_range by (simpl; lia). done.
    - exists (<[Z.to_nat j := x]> a). split; [done |].
      split; [by rewrite length_insert |].
      intros k. destruct (decide (k = Z.to_nat j)) as [-> | Hne].
      + rewrite list_lookup_insert_eq by lia. rewrite <- Hx.
        case_bool_decide; [| lia]. f_equal. lia.
      + rewrite list_lookup_insert_ne by done. rewrite Ha.
        repeat case_bool_decide; (done || lia). }
  rewrite (bind_Returns _ _ _ _ _ _ Hshift), after_nil.
  destruct (for_ne_rule
    (λ j (_ : unit) m',
       ∃ a, m' = with_array a m ∧ length a = length (m_array m) ∧
       ∀ k : nat,
         a !! k = if bool_decide (to ≤ Z.of_nat k < to + j)
                  then m_array m !! Z.to_nat (from + (Z.of_nat k - to))
                  else a1 !! k)
    (λ i (_ : unit), x ← buffer_at buf i; array_assign (to + i) x)
    0 count tt (with_array a1 m))
    as ([] & m3 & Hplace & a2 & -> & Ha2len & Ha2); [done | | |].
  { exists a1. split; [done |]. split; [done |].
    intros k. case_bool_decide; [lia | done]. }
  { intros j [] m' Hj (a & -> & Halen & Ha).
    destruct (lookup_lt_is_Some_2 (m_array m) (Z.to_nat (from + j))) as [x Hx]; [lia |].
    assert (Hread : buffer_at buf j (with_array a m) = Returns x (with_array a m) []).
    { unfold buffer_at.
      rewrite (bind_Returns _ _ _ _ _ _
        (at_index_lookup buf j (Some x) (with_array a m) ltac:(lia) ltac:(
           rewrite (Hbuf (Z.to_nat j)) by lia; rewrite <- Hx; do 2 f_equal; lia))).
      by rewrite after_nil. }
    exists tt, (with_array (<[Z.to_nat (to + j) := x]> a) m). split.
    - rewrite (bind_Returns _ _ _ _ _ _ Hread), after_nil.
      rewrite array_assign_in_range by (simpl; lia). done.
    - exists (<[Z.to_nat (to + j) := x]> a). split; [done |].
      split; [by rewrite length_insert |].
      intros k. destruct (decide (k = Z.to_nat (to + j))) as [-> | Hne].
      + rewrite list_lookup_insert_eq by lia. rewrite <- Hx.
        case_bool_decide; [| lia]. f_equal. lia.
      + rewrite list_lookup_insert_ne by done. rewrite Ha.
        repeat case_bool_decide; (done || lia). }
  exists a2. split; [done |]. split; [done |].
  intros k. rewrite Ha2. unfold source_index.
  case_bool_decide; [done |]. rewrite Ha1.
  case_bool_decide; [done |]. f_equal. lia.
Qed.

Lemma normalize_Returns m from to count f t c m' evs :
  normalize from to count m = Returns (f, t, c) m' evs →
  (to < from ∧ f = to ∧ t = to + count ∧ c = from - to ∧
   in_int (from - to) ∧ in_int (to + count)) ∨
  (from ≤ to ∧ f = from ∧ t = to ∧ c = count).
Proof.
  unfold normalize. case_match.
  - unfold mbind, M_bind.
    destruct (int (from - to) m) as [c1 m1 e1 | |] eqn:Hc; [| done..].
    apply int_Returns in Hc as (? & -> & -> & ->).
    destruct (int (to + count) m) as [t1 m1 e1 | |] eqn:Ht; [| done..].
    apply int_Returns in Ht as (? & -> & -> & ->).
    intros [= <- <- <- <- <-]. left. unfold in_int in *. lia.
  - intros [= <- <- <- <- <-]. right. lia.
Qed.

Lemma normalize_backward m from to count :
  to < from → in_int (from - to) → in_int (to + count) →
  normalize from to count m = Returns (to, to + count, from - to) m [].
Proof.
  intros Hlt Hc Ht. unfold normalize. replace (to <? from) with true by lia.
  rewrite (bind_Returns _ _ _ _ _ _ (int_in_range _ m Hc)), after_nil.
  by rewrite (bind_Returns _ _ _ _ _ _ (int_in_range _ m Ht)), after_nil.
Qed.

Lemma normalize_forward m from to count :
  from ≤ to → normalize from to count m = Returns (from, to, count) m [].
Proof. intros. unfold normalize. by replace (to <? from) with false by lia. Qed.

Lemma out_of_bounds_false m f t c m' evs :
  out_of_bounds f t c m = Returns false m' evs →
  0 ≤ f < Z.of_nat (length (m_array m)) ∧
  0 ≤ t < Z.of_nat (length (m_array m)) ∧
  in_int (t + c) ∧
  t + c ≤ Z.of_nat (length (m_array m)).
Proof.
  unfold out_of_bounds, array_size, mbind, M_bind, get. simpl.
  case_match eqn:Hguard; [done |].
  destruct (int (t + c) m) as [s m1 e1 | |] eqn:Hs; [| done..].
  apply int_Returns in Hs as (? & -> & -> & ->). simpl.
  intros [= Hgt _ _]. revert Hguard Hgt. unfold ge_size, gt_size.
  destruct size_is_unsigned; intros ? ?;
    (split; [lia | split; [lia | split; [done | lia]]]).
Qed.

Lemma out_of_bounds_accepts m f t c :
  0 ≤ f < Z.of_nat (length (m_array m)) →
  0 ≤ t < Z.of_nat (length (m_array m)) →
  in_int (t + c) →
  0 ≤ t + c ≤ Z.of_nat (length (m_array m)) →
  out_of_bounds f t c m = Returns false m [].
Proof.
  intros Hf Ht Hint Hs.
  unfold out_of_bounds, array_size, mbind, M_bind, get. simpl.
  rewrite !ge_size_in_range by done.
  replace (f <? 0) with false by lia. replace (t <? 0) with false by lia. simpl.
  rewrite (int_in_range _ _ Hint). simpl. do 2 f_equal.
  unfold gt_size. destruct size_is_unsigned; lia.
Qed.

Lemma move_performed m from to count f t c :
  from ≠ to → count ≠ 0 →
  normalize from to count m = Returns (f, t, c) m [] →
  out_of_bounds f t c m = Returns false m [] →
  f ≤ t → 0 ≤ c →
  ∃ a, move from to count m =
         Returns tt (with_array a m)
           (beginMoveRows f (f + c - 1) (t + c) :: hook_events m ++ [endMoveRows]) ∧
       length a = length (m_array m) ∧
       ∀ k : nat,
         a !! k = m_array m !! Z.to_nat (source_index f t c (Z.of_nat k)).
Proof.
  intros Hne Hc0 Hnorm Hguard Hft Hc.
  pose proof (out_of_bounds_false _ _ _ _ _ _ Hguard) as (Hf & Ht & Hint & Hlen).
  destruct (shift_block_spec m f t c) as (a & Hshift & Halen & Ha); [lia.. |].
  exists a. split; [| done].
  unfold move. replace ((from =? to) || (count =? 0)) with false by lia.
  rewrite (bind_Returns _ _ _ _ _ _ Hnorm), after_nil.
  rewrite (bind_Returns _ _ _ _ _ _ Hguard), after_nil.
  unfold in_int, INT_MIN, INT_MAX in Hint.
  rewrite (bind_Returns _ _ _ _ _ _ (int_in_range (f + c) m ltac:(unfold in_int, INT_MIN, INT_MAX; lia))), after_nil.
  rewrite (bind_Returns _ _ _ _ _ _ (int_in_range (f + c - 1) m ltac:(unfold in_int, INT_MIN, INT_MAX; lia))), after_nil.
  rewrite (bind_Returns _ _ _ _ _ _ (int_in_range (t + c) m ltac:(unfold in_int, INT_MIN, INT_MAX; lia))), after_nil.
  unfold mbind, M_bind, emit. simpl.
  rewrite Hshift. simpl. rewrite do_update_events. simpl.
  done.
Qed.

Lemma source_index_inverse f t c f' t' c' (k : nat) :
  f' = f → t' = f + c → c' = t - f →
  f ≤ t → 0 ≤ f → 0 ≤ c →
  Z.to_nat (source_index f t c
    (Z.of_nat (Z.to_nat (source_index f' t' c' (Z.of_nat k))))) = k.
Proof.
  intros -> -> -> ? ? ?. unfold source_index. repeat case_bool_decide; lia.
Qed.

Lemma move_events_no_warning m f l d w :
  qWarning w ∉ beginMoveRows f l d :: hook_events m ++ [endMoveRows].
Proof.
  rewrite not_elem_of_cons, not_elem_of_app, not_elem_of_cons.
  split; [done |]. split; [apply hook_events_no_warning |].
  split; [done | apply not_elem_of_nil].
Qed.

(** C2. When [count] is positive and [move(from, to, count)] passes the
    guard, running it and then [move(to, from, count)] returns with every
    field of the model, the backing array included, as it was before, and
    neither call logs the invalid-indexing warning.  Nothing is asked of
    the two ranges beyond the guard, so the moves whose destination block
    ends at the last position are covered. *)
Theorem move_there_and_back m from to count :
  0 < count →
  accepts_move from to count m →
  ∃ evs, (move from to count;; move to from count) m = Returns tt m evs ∧
         qWarning InvalidMove ∉ evs.
Proof.
  intros Hcount (f & t & c & Hnorm & Hguard).
  destruct (decide (from = to)) as [-> | Hne].
  { exists []. split; [| apply not_elem_of_nil].
    unfold move, mbind, M_bind. by rewrite Z.eqb_refl. }
  pose proof (out_of_bounds_false _ _ _ _ _ _ Hguard) as (Hf & Ht & Hint & Hlen).
  destruct (normalize_Returns _ _ _ _ _ _ _ _ _ Hnorm)
    as [(Hlt & -> & -> & -> & Hi1 & Hi2) | (Hle & -> & -> & ->)].
  - (* towards the front, then back *)
    destruct (move_performed m from to count to (to + count) (from - to))
      as (a1 & Hmove1 & Hlen1 & Ha1); [done | lia | done | done | lia | lia |].
    set (m1 := with_array a1 m).
    destruct (move_performed m1 to from count to from count)
      as (a2 & Hmove2 & Hlen2 & Ha2); [done | lia | | | lia | lia |].
    { apply normalize_forward. lia. }
    { apply out_of_bounds_accepts; simpl; rewrite ?Hlen1; unfold in_int in *; lia. }
    eexists. split.
    + rewrite (bind_Returns _ _ _ _ _ _ Hmove1). cbv beta. fold m1. rewrite Hmove2. simpl.
      f_equal. subst m1. rewrite with_array_twice.
      rewrite <- (with_array_id m) at 2. f_equal.
      apply list_eq. intros k. rewrite Ha2. simpl. rewrite Ha1. f_equal.
      apply source_index_inverse; lia.
    + rewrite app_comm_cons, not_elem_of_app.
      split; apply move_events_no_warning.
  - (* towards the back, then to the front again *)
    destruct (move_performed m from to count from to count)
      as (a1 & Hmove1 & Hlen1 & Ha1); [done | lia | done | done | lia | lia |].
    set (m1 := with_array a1 m).
    destruct (move_performed m1 to from count from (from + count) (to - from))
      as (a2 & Hmove2 & Hlen2 & Ha2); [done | lia | | | lia | lia |].
    { apply normalize_backward; unfold in_int, INT_MIN, INT_MAX in *; lia. }
    { apply out_of_bounds_accepts; simpl; rewrite ?Hlen1;
        unfold in_int, INT_MIN, INT_MAX in *; lia. }
    eexists. split.
    + rewrite (bind_Returns _ _ _ _ _ _ Hmove1). cbv beta. fold m1. rewrite Hmove2. simpl.
      f_equal. subst m1. rewrite with_array_twice.
      rewrite <- (with_array_id m) at 2. f_equal.
      apply list_eq. intros k. rewrite Ha2. simpl. rewrite Ha1. f_equal.
      apply source_index_inverse; lia.
    + rewrite app_comm_cons, not_elem_of_app.
      split; apply move_events_no_warning.
Qed.

(** X1. An accepted move with a positive count stays inside the array: it
    returns, brackets the hook between [beginMoveRows] and [endMoveRows],
    keeps the number of items, and the item at position [k] afterwards is
    the one that was at [source_index f t c k], for the normalized
    arguments [(f, t, c)]. *)
Theorem accepted_move_shifts_block m from to count :
  0 < count → from ≠ to →
  accepts_move from to count m →
  ∃ f t c a,
    normalize from to count m = Returns (f, t, c) m [] ∧
    move from to count m =
      Returns tt (with_array a m)
        (beginMoveRows f (f + c - 1) (t + c) :: hook_events m ++ [endMoveRows]) ∧
    length a = length (m_array m) ∧
    ∀ k : nat, a !! k = m_array m !! Z.to_nat (source_index f t c (Z.of_nat k)).
Proof.
  intros Hcount Hne (f & t & c & Hnorm & Hguard).
  assert (f ≤ t ∧ 0 ≤ c) as [Hft Hc].
  { destruct (normalize_Returns _ _ _ _ _ _ _ _ _ Hnorm)
      as [(? & -> & -> & -> & _) | (? & -> & -> & ->)]; lia. }
  destruct (move_performed m from to count f t c) as (a & Hmove & Hlen & Ha);
    [done | lia | done..|].
  by exists f, t, c, a.
Qed.



(** *** [setData] on a read-only role, [remove] *)

(** X3. [setData] on a row in range and a registered role whose setter is
    null logs the role's name and returns [false], with the model as it
    was. *)
Theorem setData_null_setter_fails m row role value name :
  0 ≤ row < Z.of_nat (length (m_array m)) →
  0 ≤ role < rolenames_size m →
  m_setters m !! Z.to_nat role = Some None →
  m_rolenames m !! role = Some name →
  setData row value role m = Returns false m [qWarning (NullSetter name)].
Proof.
  intros Hrow Hrole Hs Hname.
  unfold setData, array_size, try_catch, mbind, M_bind, get. simpl.
  rewrite ge_size_in_range by done.
  replace (row <? 0) with false by lia. simpl.
  unfold rolesetter, mbind, M_bind, get.
  replace ((role <? 0) || (rolenames_size m <=? role)) with false by lia. simpl.
  rewrite (at_index_lookup _ _ _ _ (proj1 Hrole) Hs). simpl.
  unfold rolenames_index, mbind, M_bind, get. by rewrite Hname.
Qed.

(** X5. [remove(index)] with [index] out of range logs the index and
    changes nothing. *)
Theorem remove_out_of_range m index :
  ¬ 0 ≤ index < Z.of_nat (length (m_array m)) →
  remove index m = Returns tt m [qWarning (RowOutOfRange index)].
Proof.
  intros Hi. unfold remove.
  rewrite (bind_Returns _ _ m (Z.of_nat (length (m_array m))) m []), after_nil by done.
  replace ((index <? 0) || ge_size index (Z.of_nat (length (m_array m))))
    with true; [done |].
  unfold ge_size. destruct size_is_unsigned; lia.
Qed.


(** One step of a monadic run: rewrite the first computation of a bind
    with its result. *)
Ltac mstep tac := erewrite bind_Returns by tac; rewrite ?after_nil.

(** *** Rows and roles out of range *)

Lemma ge_size_out_of_range x n :
  ¬ 0 ≤ x < n → (x <? 0) || ge_size x n = true.
Proof. intros. unfold ge_size. destruct size_is_unsigned; lia. Qed.

Lemma ge_size_guard_false x n : ge_size x n || (x <? 0) = false → 0 ≤ x < n.
Proof. unfold ge_size. destruct size_is_unsigned; lia. Qed.

(** X6. [data] and [setData] on a row outside [0 .. size-1] log the row and
    leave the model alone: [data] returns an invalid [QVariant], [setData]
    returns [false], whatever the role, and no getter or setter is looked
    up. *)
Theorem row_out_of_range_is_refused m row role value :
  ¬ 0 ≤ row < Z.of_nat (length (m_array m)) →
  data row role m = Returns QVariant_invalid m [qWarning (RowOutOfRange row)] ∧
  setData row value role m = Returns false m [qWarning (RowOutOfRange row)].
Proof.
  intros Hrow. unfold data, setData.
  rewrite !(bind_Returns _ _ m (Z.of_nat (length (m_array m))) m []), !after_nil by done.
  by rewrite ge_size_out_of_range.
Qed.

(** X7. [data] on a valid row and a role id outside [0 .. roles-1]: the
    getter lookup logs the role and falls back on Julia's [string], and
    [data] returns the conversion of [string(item)]. *)
Theorem data_unknown_role_uses_string m row role item :
  0 ≤ row →
  m_array m !! Z.to_nat row = Some item →
  ¬ 0 ≤ role < rolenames_size m →
  data row role m =
    Returns (convert_to_cpp (jl_call string_fn [item])) m
      [qWarning (GetterRoleOutOfRange role)].
Proof.
  intros Hrow Hitem Hrole. pose proof (lookup_lt_Some _ _ _ Hitem).
  unfold data.
  rewrite (bind_Returns _ _ m (Z.of_nat (length (m_array m))) m []), after_nil by done.
  rewrite ge_size_in_range by lia.
  replace (row <? 0) with false by lia. simpl.
  assert (Hg : rolegetter role m =
    Returns string_fn m [qWarning (GetterRoleOutOfRange role)]).
  { unfold rolegetter, mbind, M_bind, get.
    by replace ((role <? 0) || (rolenames_size m <=? role)) with true by lia. }
  rewrite (bind_Returns _ _ _ _ _ _ Hg).
  by rewrite (bind_Returns _ _ _ _ _ _ (array_at_lookup m row item Hrow Hitem)).
Qed.

(** *** [append] without a usable constructor *)

(** X8. [append] on a model without constructor logs that none is set and
    adds nothing; no row signal is emitted. *)
Theorem append_without_constructor m record :
  dense_roles m →
  m_constructor m = None →
  append record m = Returns tt m [qWarning NoConstructor].
Proof.
  intros Hd Hc. rewrite (append_projects _ _ Hd).
  unfold append_list, mbind, M_bind, get. by rewrite Hc.
Qed.

(** X9. [append] with a record the constructor raises on: the exception is
    caught, the positional arguments are logged, nothing is added and no
    row signal is emitted. *)
Theorem append_rejected_record m c record :
  dense_roles m →
  m_constructor m = Some c →
  jl_call c (convert_to_julia <$> positional record m) = None →
  append record m = Returns tt m [qWarning (AppendError (positional record m))].
Proof.
  intros Hd Hc Hcall. rewrite (append_projects _ _ Hd).
  unfold append_list, mbind, M_bind, get. by rewrite Hc, Hcall.
Qed.

(** *** Names and keys *)

Lemma rolenames_contains_false m name k :
  rolenames_contains name m = false → m_rolenames m !! k ≠ Some name.
Proof.
  intros Hc Hk. by rewrite (rolenames_contains_lookup _ _ _ Hk) in Hc.
Qed.

Lemma rolenames_contains_true m name :
  rolenames_contains name m = true → ∃ k, m_rolenames m !! k = Some name.
Proof.
  unfold rolenames_contains. intros Hc%bool_decide_eq_true.
  apply list_elem_of_fmap in Hc as ([k name'] & -> & Hin).
  exists k. by apply elem_of_map_to_list.
Qed.

Lemma rolenames_key_lookup m name k :
  distinct_names m →
  m_rolenames m !! k = Some name →
  rolenames_key name m = k.
Proof.
  intros Hdist Hk. unfold rolenames_key.
  assert (Hin : (k, name) ∈
    filter (λ kv : Z * string, kv.2 = name) (map_to_list (m_rolenames m))).
  { apply list_elem_of_filter. split; [done |]. by apply elem_of_map_to_list. }
  destruct (filter _ _) as [| [k' name'] l] eqn:Hl.
  - by apply elem_of_nil in Hin.
  - assert (Hhd : (k', name') ∈
      filter (λ kv : Z * string, kv.2 = name) (map_to_list (m_rolenames m))).
    { rewrite Hl. apply list_elem_of_here. }
    apply list_elem_of_filter in Hhd as [Hname Hhd]. simpl in Hname. subst name'.
    apply elem_of_map_to_list in Hhd. by apply (Hdist k' k name).
Qed.

Lemma rolenames_key_only_holder m name idx :
  (∀ k, m_rolenames m !! k = Some name → k = idx) →
  rolenames_contains name m = true →
  rolenames_key name m = idx.
Proof.
  intros Honly [k Hk]%rolenames_contains_true. unfold rolenames_key.
  assert (Hin : (k, name) ∈
    filter (λ kv : Z * string, kv.2 = name) (map_to_list (m_rolenames m))).
  { apply list_elem_of_filter. split; [done |]. by apply elem_of_map_to_list. }
  destruct (filter _ _) as [| [k' name'] l] eqn:Hl.
  - by apply elem_of_nil in Hin.
  - assert (Hhd : (k', name') ∈
      filter (λ kv : Z * string, kv.2 = name) (map_to_list (m_rolenames m))).
    { rewrite Hl. apply list_elem_of_here. }
    apply list_elem_of_filter in Hhd as [Hname Hhd]. simpl in Hname. subst name'.
    apply elem_of_map_to_list in Hhd. by apply Honly.
Qed.

Lemma setData_calls_setter m row role value f :
  0 ≤ row < Z.of_nat (length (m_array m)) →
  0 ≤ role < rolenames_size m →
  m_setters m !! Z.to_nat role = Some (Some f) →
  setData row value role m =
    Returns true
      (with_array (call_setter f (m_array m) (box value) (row + 1)) m)
      (setter_called f (box value) (row + 1) ::
       hook_events m ++ [dataChanged row row [role]]).
Proof.
  intros Hrow Hr Hf.
  unfold setData, array_size, try_catch, mbind, M_bind, get. simpl.
  rewrite ge_size_in_range by done.
  replace (row <? 0) with false by lia. simpl.
  rewrite (rolesetter_registered _ _ _ Hr Hf). simpl.
  unfold do_update_cells, mbind, M_bind.
  rewrite do_update_events. simpl.
  replace (row + 1 - 1) with row by lia.
  by rewrite app_nil_r.
Qed.

(** X10. [setProperty(index, name, value)] with a registered name whose
    role has a setter is [setData] on that role: the setter is called with
    position [index + 1] and [dataChanged(index, index, [k])] is emitted
    for the id [k] of the name. *)
Theorem setProperty_known_name m index name value k f :
  distinct_names m →
  m_rolenames m !! k = Some name →
  0 ≤ index < Z.of_nat (length (m_array m)) →
  0 ≤ k < rolenames_size m →
  m_setters m !! Z.to_nat k = Some (Some f) →
  setProperty index name value m =
    Returns tt
      (with_array (call_setter f (m_array m) (box value) (index + 1)) m)
      (setter_called f (box value) (index + 1) ::
       hook_events m ++ [dataChanged index index [k]]).
Proof.
  intros Hdist Hname Hindex Hk Hf. unfold setProperty.
  rewrite (bind_Returns _ _ m m m []), after_nil by done.
  rewrite (rolenames_key_lookup _ _ _ Hdist Hname).
  rewrite (bind_Returns _ _ _ _ _ _ (setData_calls_setter _ _ _ value _ Hindex Hk Hf)).
  simpl. by rewrite app_nil_r.
Qed.

(** *** [addrole] *)

(** X11. Once [addrole(name, getter, ...)] has added a role, a second
    [addrole] of the same name, with any callables, only logs that the role
    exists. *)
Theorem addrole_twice m name g setter m' evs getter2 setter2 :
  rolenames_contains name m = false →
  addrole name (Some g) setter m = Returns tt m' evs →
  addrole name getter2 setter2 m' = Returns tt m' [qWarning (RoleExists name)].
Proof.
  intros Hc. unfold addrole at 1. unfold mbind, M_bind, get. rewrite Hc.
  intros Hrun.
  assert (∃ k, m_rolenames m' !! k = Some name) as [k Hk].
  { destruct (m_custom_roles m), setter; simpl in Hrun;
      injection Hrun as <- _; eexists; simpl; apply lookup_insert_eq. }
  by apply (addrole_existing_name _ k).
Qed.

(** *** [roles()] *)

Lemma roles_role_names m : roles m = Returns (role_names m) m [].
Proof.
  unfold roles. rewrite (bind_Returns _ _ m m m []), after_nil by done.
  destruct (for_ne_rule
    (λ j (l : list string) m',
       m' = m ∧
       l = (λ i : nat, default ""%string (m_rolenames m !! Z.of_nat i)) <$>
             seq 0 (Z.to_nat j))
    (λ i rolelist, mret (rolelist ++ [default ""%string (m_rolenames m !! i)]))
    0 (rolenames_size m) [] m) as (l & m1 & Hloop & -> & ->).
  - unfold rolenames_size. lia.
  - done.
  - intros j l m' Hj (-> & ->). eexists _, m. split; [done |]. split; [done |].
    replace (Z.to_nat (j + 1)) with (S (Z.to_nat j)) by lia.
    rewrite seq_S, fmap_app. simpl. by replace (Z.of_nat (Z.to_nat j)) with j by lia.
  - rewrite Hloop. unfold role_names, rolenames_size. by rewrite Nat2Z.id.
Qed.

Lemma role_names_length m : length (role_names m) = size (m_rolenames m).
Proof. unfold role_names. by rewrite length_fmap, length_seq. Qed.

Lemma role_names_lookup m (i : nat) :
  dense_roles m → role_names m !! i = m_rolenames m !! Z.of_nat i.
Proof.
  intros (Hdom & Hsize & _ & _). unfold role_names. rewrite list_lookup_fmap.
  destruct (decide (i < size (m_rolenames m))%nat) as [Hi | Hi].
  - rewrite lookup_seq_lt by done. simpl.
    destruct (proj2 (Hdom (Z.of_nat i))) as [name Hname]; [lia |]. by rewrite Hname.
  - rewrite lookup_ge_None_2 by (rewrite length_seq; lia). simpl.
    symmetry. apply eq_None_not_Some. intros Hs%Hdom. lia.
Qed.

Lemma dense_domain_size (R : gmap Z string) (n : nat) :
  (∀ k : Z, is_Some (R !! k) ↔ 0 ≤ k < Z.of_nat n) → size R = n.
Proof.
  revert R. induction n as [| n IH]; intros R Hdom.
  - apply map_size_empty_iff, map_empty. intros k.
    apply eq_None_not_Some. intros Hs%Hdom. lia.
  - assert (Hn : is_Some (R !! Z.of_nat n)) by (apply Hdom; lia).
    pose proof (map_size_delete_Some (Z.of_nat n) R Hn) as Hdel.
    rewrite (IH (delete (Z.of_nat n) R)) in Hdel.
    + destruct Hn as [x Hx].
      pose proof (map_size_ne_0_lookup_2 R _ (mk_is_Some _ _ Hx)). lia.
    + intros k. rewrite lookup_delete_is_Some, Hdom. lia.
Qed.

Lemma dense_roles_intro m (R : gmap Z string) G S custom :
  (∀ k : Z, is_Some (R !! k) ↔ 0 ≤ k < Z.of_nat (length G)) →
  length S = length G →
  Forall is_Some G →
  dense_roles (with_roles R G S custom m).
Proof.
  intros Hdom Hlen Hall. split; [done |]. split; [| done].
  simpl. by apply dense_domain_size.
Qed.

Lemma addrole_default_run m name g setter :
  m_custom_roles m = false →
  rolenames_contains name m = false →
  addrole name (Some g) setter m =
    Returns tt (with_roles {[ 0 := name ]} [Some g] [setter] true m)
      (protect_from_gc (FunPtr (Some g)) :: pin_events setter ++ [rolesChanged]).
Proof.
  intros Hcustom Hc.
  unfold addrole, mbind, M_bind, get. rewrite Hc, Hcustom. simpl.
  unfold rolenames_size.
  destruct setter; simpl; rewrite map_size_empty, insert_empty; done.
Qed.

(** X12. The first custom role replaces the registry: on a model still in
    default mode, [addrole(name, getter, setter)] with a new name drops the
    default role without releasing anything, leaves [name] as the only
    role, with id 0, pins the getter and the non-null setter, and [roles()]
    then lists [name] alone. *)
Theorem addrole_first_custom_role_replaces_registry m name g setter :
  m_custom_roles m = false →
  rolenames_contains name m = false →
  addrole name (Some g) setter m =
    Returns tt (with_roles {[ 0 := name ]} [Some g] [setter] true m)
      (protect_from_gc (FunPtr (Some g)) :: pin_events setter ++ [rolesChanged]) ∧
  roles (with_roles {[ 0 := name ]} [Some g] [setter] true m) =
    Returns [name] (with_roles {[ 0 := name ]} [Some g] [setter] true m) [].
Proof.
  intros Hcustom Hc. split.
  - by apply addrole_default_run.
  - rewrite roles_role_names. unfold role_names. simpl.
    rewrite map_size_singleton. simpl. by rewrite lookup_singleton_eq.
Qed.

(** X13. In custom mode [addrole] with a new name appends: the array is
    untouched, [roles()] lists the old names followed by the new one, the
    new role's getter is served under the next free id, and every role
    registered before keeps its getter. *)
Theorem addrole_appends_role m name g setter :
  dense_roles m →
  m_custom_roles m = true →
  rolenames_contains name m = false →
  ∃ m',
    addrole name (Some g) setter m =
      Returns tt m'
        (protect_from_gc (FunPtr (Some g)) :: pin_events setter ++ [rolesChanged]) ∧
    m_array m' = m_array m ∧
    (∀ l, roles m = Returns l m [] → roles m' = Returns (l ++ [name]) m' []) ∧
    rolegetter (rolenames_size m) m' = Returns g m' [] ∧
    (∀ (r : nat) g0, m_getters m !! r = Some (Some g0) →
       rolegetter (Z.of_nat r) m' = Returns g0 m' []).
Proof.
  intros Hd Hcustom Hc.
  set (m' := with_roles (<[rolenames_size m := name]> (m_rolenames m))
               (m_getters m ++ [Some g]) (m_setters m ++ [setter]) true m).
  assert (Hrun : addrole name (Some g) setter m =
    Returns tt m'
      (protect_from_gc (FunPtr (Some g)) :: pin_events setter ++ [rolesChanged])).
  { unfold addrole, mbind, M_bind, get. rewrite Hc, Hcustom. simpl.
    subst m'. destruct setter; simpl; rewrite ?Hcustom; done. }
  assert (Hd' : dense_roles m') by (by apply (addrole_dense _ _ _ _ _ _ Hd Hrun)).
  pose proof Hd as (Hdom & Hsize & Hlen & Hall).
  assert (Hsize' : rolenames_size m' = rolenames_size m + 1).
  { unfold rolenames_size. destruct Hd' as (_ & -> & _). simpl.
    rewrite length_app, Hsize. simpl. lia. }
  exists m'. split; [done |]. split; [done |]. split; [| split].
  - intros l Hl. rewrite roles_role_names in Hl. injection Hl as <-.
    rewrite roles_role_names. do 2 f_equal.
    apply list_eq. intros i. rewrite (role_names_lookup _ _ Hd').
    destruct (decide (i < size (m_rolenames m))%nat) as [Hi | Hi].
    + rewrite lookup_app_l by (by rewrite role_names_length).
      rewrite (role_names_lookup _ _ Hd). simpl.
      rewrite lookup_insert_ne by (unfold rolenames_size; lia). done.
    + rewrite lookup_app_r by (rewrite role_names_length; lia).
      rewrite role_names_length. simpl.
      destruct (decide (i = size (m_rolenames m))) as [-> | Hne].
      * rewrite Nat.sub_diag. simpl. unfold rolenames_size. by rewrite lookup_insert_eq.
      * rewrite lookup_insert_ne by (unfold rolenames_size; lia).
        replace (i - size (m_rolenames m))%nat with (S (i - size (m_rolenames m) - 1))
          by lia. simpl.
        apply eq_None_not_Some. intros Hs%Hdom. lia.
  - apply rolegetter_registered; [unfold rolenames_size in *; lia |].
    simpl. unfold rolenames_size. rewrite Nat2Z.id, Hsize.
    by rewrite lookup_app_r, Nat.sub_diag by lia.
  - intros r g0 Hg0. pose proof (lookup_lt_Some _ _ _ Hg0).
    apply rolegetter_registered; [unfold rolenames_size in *; lia |].
    simpl. rewrite Nat2Z.id. by rewrite lookup_app_l.
Qed.

(** X19. On a dense registry [roles()] returns one name per getter, the
    one registered under each id, in id order, and changes nothing. *)
Theorem roles_lists_names_in_id_order m :
  dense_roles m →
  ∃ l, roles m = Returns l m [] ∧
       length l = length (m_getters m) ∧
       ∀ i : nat, l !! i = m_rolenames m !! Z.of_nat i.
Proof.
  intros Hd. exists (role_names m). split; [apply roles_role_names |]. split.
  - rewrite role_names_length. by destruct Hd as (_ & -> & _).
  - intros i. by apply role_names_lookup.
Qed.

(** *** [setrole] *)

Lemma getters_at_lookup m i x :
  0 ≤ i → m_getters m !! Z.to_nat i = Some x → getters_at i m = Returns x m [].
Proof.
  intros Hi Hx. unfold getters_at. rewrite (bind_Returns _ _ m m m []), after_nil by done.
  by apply at_index_lookup.
Qed.

Lemma setters_at_lookup m i x :
  0 ≤ i → m_setters m !! Z.to_nat i = Some x → setters_at i m = Returns x m [].
Proof.
  intros Hi Hx. unfold setters_at. rewrite (bind_Returns _ _ m m m []), after_nil by done.
  by apply at_index_lookup.
Qed.

Lemma getters_assign_in_range m i p :
  0 ≤ i < Z.of_nat (length (m_getters m)) →
  getters_assign i p m =
    Returns tt (with_roles (m_rolenames m) (<[Z.to_nat i := p]> (m_getters m))
                  (m_setters m) (m_custom_roles m) m) [].
Proof.
  intros Hi. unfold getters_assign. rewrite (bind_Returns _ _ m m m []), after_nil by done.
  by replace ((0 <=? i) && (i <? Z.of_nat (length (m_getters m)))) with true by lia.
Qed.

Lemma setters_assign_in_range m i p :
  0 ≤ i < Z.of_nat (length (m_setters m)) →
  setters_assign i p m =
    Returns tt (with_roles (m_rolenames m) (m_getters m)
                  (<[Z.to_nat i := p]> (m_setters m)) (m_custom_roles m) m) [].
Proof.
  intros Hi. unfold setters_assign. rewrite (bind_Returns _ _ m m m []), after_nil by done.
  by replace ((0 <=? i) && (i <? Z.of_nat (length (m_setters m)))) with true by lia.
Qed.

Lemma rolenames_index_present m k name :
  m_rolenames m !! k = Some name → rolenames_index k m = Returns name m [].
Proof. intros Hk. unfold rolenames_index, mbind, M_bind, get. by rewrite Hk. Qed.

Lemma unpin_events_run (s : option jl_function) m :
  match s with
  | Some _ => emit (unprotect_from_gc (FunPtr s))
  | None => mret tt
  end m = Returns tt m (unpin_events s).
Proof. by destruct s. Qed.

Lemma pin_events_run (s : option jl_function) m :
  match s with
  | Some _ => emit (protect_from_gc (FunPtr s))
  | None => mret tt
  end m = Returns tt m (pin_events s).
Proof. by destruct s. Qed.

Lemma setrole_run m idx name g setter og os current :
  0 ≤ idx →
  m_getters m !! Z.to_nat idx = Some og →
  m_setters m !! Z.to_nat idx = Some os →
  m_rolenames m !! idx = Some current →
  (∀ k, m_rolenames m !! k = Some name → k = idx) →
  setrole idx name (Some g) setter m =
    Returns tt
      (with_roles (<[idx := name]> (m_rolenames m))
         (<[Z.to_nat idx := Some g]> (m_getters m))
         (<[Z.to_nat idx := setter]> (m_setters m)) (m_custom_roles m) m)
      (unprotect_from_gc (FunPtr og) :: unpin_events os ++
       protect_from_gc (FunPtr (Some g)) :: pin_events setter ++
       [if bool_decide (current = name)
        then dataChanged 0 (Z.of_nat (length (m_array m)) - 1) [idx]
        else rolesChanged]).
Proof.
  intros Hidx Hog Hos Hcur Honly.
  pose proof (lookup_lt_Some _ _ _ Hog). pose proof (lookup_lt_Some _ _ _ Hos).
  unfold setrole. rewrite (bind_Returns _ _ m m m []), after_nil by done.
  rewrite ge_size_in_range by lia.
  replace (idx <? 0) with false by lia. cbn [orb].
  assert (rolenames_contains name m && negb (rolenames_key name m =? idx) = false) as ->.
  { destruct (rolenames_contains name m) eqn:Hc; [| done].
    rewrite (rolenames_key_only_holder _ _ _ Honly Hc). by rewrite Z.eqb_refl. }
  mstep ltac:(by apply getters_at_lookup).
  mstep ltac:(reflexivity).
  mstep ltac:(by apply setters_at_lookup).
  mstep ltac:(apply unpin_events_run).
  mstep ltac:(reflexivity).
  mstep ltac:(apply pin_events_run).
  mstep ltac:(apply getters_assign_in_range; lia).
  mstep ltac:(apply setters_assign_in_range; simpl; lia).
  mstep ltac:(by apply rolenames_index_present).
  simpl. case_bool_decide as Hsame.
  - subst current. rewrite (insert_id _ _ _ Hcur).
    unfold array_size, mbind, M_bind, get, emit. simpl. by destruct m.
  - unfold rolenames_assign, mbind, M_bind, modify, emit. simpl. done.
Qed.


(** X16. [setrole] changes nothing and logs one warning when the id is not
    that of a role, when another role holds the name (names being
    distinct), or when the getter is null. *)
Theorem setrole_refused m idx name getter setter :
  ¬ 0 ≤ idx < Z.of_nat (length (m_getters m)) ∨
  (distinct_names m ∧ ∃ k, k ≠ idx ∧ m_rolenames m !! k = Some name) ∨
  getter = None →
  ∃ w, setrole idx name getter setter m = Returns tt m [qWarning w].
Proof.
  intros Hcase. unfold setrole. rewrite (bind_Returns _ _ m m m []), after_nil by done.
  destruct (ge_size idx (Z.of_nat (length (m_getters m))) || (idx <? 0)) eqn:Hrange;
    [by eexists |].
  destruct (rolenames_contains name m && negb (rolenames_key name m =? idx)) eqn:Hname;
    [by eexists |].
  apply ge_size_guard_false in Hrange.
  destruct Hcase as [Hout | [(Hdist & k & Hne & Hk) | ->]]; [lia | | by eexists].
  rewrite (rolenames_contains_lookup _ _ _ Hk) in Hname.
  rewrite (rolenames_key_lookup _ _ _ Hdist Hk) in Hname. simpl in Hname. lia.
Qed.

(** *** [removerole] *)

Lemma shifted_take_delete {X} (l a : list X) (idx : Z) :
  0 ≤ idx < Z.of_nat (length l) →
  length a = length l →
  (∀ k : nat,
     a !! k = if bool_decide (idx ≤ Z.of_nat k < Z.of_nat (length l) - 1)
              then l !! S k else l !! k) →
  take (length l - 1) a = delete (Z.to_nat idx) l.
Proof.
  intros Hidx Hlen Ha. apply list_eq. intros k.
  destruct (decide (k < length l - 1)%nat) as [Hk | Hk].
  - rewrite lookup_take_lt by done. rewrite Ha. case_bool_decide.
    + by rewrite list_lookup_delete_ge by lia.
    + by rewrite list_lookup_delete_lt by lia.
  - rewrite lookup_take_ge by lia. symmetry. apply lookup_ge_None.
    rewrite length_delete by (apply lookup_lt_is_Some_2; lia). lia.
Qed.

Lemma resize_shrink {X} (v : list X) (n : Z) filler m :
  0 ≤ n ≤ Z.of_nat (length v) →
  resize n v filler m = Returns (take (Z.to_nat n) v) m [].
Proof.
  intros Hn. unfold resize. rewrite (proj2 (Z.leb_le 0 n)) by lia.
  replace (Z.to_nat n - length v)%nat with 0%nat by lia. simpl.
  by rewrite app_nil_r.
Qed.

Lemma getters_resize_shrink m n :
  0 ≤ n ≤ Z.of_nat (length (m_getters m)) →
  getters_resize n m =
    Returns tt (with_roles (m_rolenames m) (take (Z.to_nat n) (m_getters m))
                  (m_setters m) (m_custom_roles m) m) [].
Proof.
  intros Hn. unfold getters_resize.
  rewrite (bind_Returns _ _ m m m []), after_nil by done.
  by rewrite (bind_Returns _ _ _ _ _ _ (resize_shrink _ n None m Hn)).
Qed.

Lemma setters_resize_shrink m n :
  0 ≤ n ≤ Z.of_nat (length (m_setters m)) →
  setters_resize n m =
    Returns tt (with_roles (m_rolenames m) (m_getters m)
                  (take (Z.to_nat n) (m_setters m)) (m_custom_roles m) m) [].
Proof.
  intros Hn. unfold setters_resize.
  rewrite (bind_Returns _ _ m m m []), after_nil by done.
  by rewrite (bind_Returns _ _ _ _ _ _ (resize_shrink _ n None m Hn)).
Qed.

Lemma removerole_spec m idx og os :
  dense_roles m →
  0 ≤ idx →
  m_getters m !! Z.to_nat idx = Some og →
  m_setters m !! Z.to_nat idx = Some os →
  ∃ R',
    removerole idx m =
      Returns tt
        (with_roles R' (delete (Z.to_nat idx) (m_getters m))
           (delete (Z.to_nat idx) (m_setters m)) (m_custom_roles m) m)
        (unprotect_from_gc (FunPtr og) :: unpin_events os ++ [rolesChanged]) ∧
    ∀ k : Z,
      R' !! k = if bool_decide (k < idx) then m_rolenames m !! k
                else m_rolenames m !! (k + 1).
Proof.
  intros (Hdom & Hsize & Hlen & Hall) Hidx Hog Hos.
  pose proof (lookup_lt_Some _ _ _ Hog) as Hrange.
  set (n := Z.of_nat (length (m_getters m))).
  destruct (for_ne_rule
    (λ j (_ : unit) m',
       ∃ Rj Gj Sj,
         m' = with_roles Rj Gj Sj (m_custom_roles m) m ∧
         length Gj = length (m_getters m) ∧
         length Sj = length (m_setters m) ∧
         (∀ k : nat, Gj !! k = if bool_decide (idx ≤ Z.of_nat k < j)
                               then m_getters m !! S k else m_getters m !! k) ∧
         (∀ k : nat, Sj !! k = if bool_decide (idx ≤ Z.of_nat k < j)
                               then m_setters m !! S k else m_setters m !! k) ∧
         (∀ k : Z, Rj !! k = if bool_decide (idx ≤ k < j)
                             then m_rolenames m !! (k + 1) else m_rolenames m !! k))
    (λ i (_ : unit),
       g ← getters_at (i + 1); getters_assign i g;;
       s ← setters_at (i + 1); setters_assign i s;;
       name ← rolenames_index (i + 1); rolenames_assign i name)
    idx (n - 1) tt m)
    as ([] & m1 & Hloop & R1 & G1 & S1 & -> & HG1len & HS1len & HG1 & HS1 & HR1);
    [lia | | |].
  { exists (m_rolenames m), (m_getters m), (m_setters m).
    split; [by destruct m |]. split; [done |]. split; [done |].
    repeat split; intros k; case_bool_decide; (done || lia). }
  { intros j [] m' Hj (Rj & Gj & Sj & -> & HGlen & HSlen & HG & HS & HR).
    destruct (lookup_lt_is_Some_2 (m_getters m) (Z.to_nat (j + 1))) as [g Hg]; [lia |].
    destruct (lookup_lt_is_Some_2 (m_setters m) (Z.to_nat (j + 1))) as [s Hs]; [lia |].
    destruct (proj2 (Hdom (j + 1))) as [name Hname]; [lia |].
    exists tt, (with_roles (<[j := name]> Rj) (<[Z.to_nat j := g]> Gj)
                  (<[Z.to_nat j := s]> Sj) (m_custom_roles m) m).
    split.
    - mstep ltac:(apply getters_at_lookup; [lia |]; simpl; rewrite HG;
                  case_bool_decide; [lia |]; exact Hg).
      mstep ltac:(apply getters_assign_in_range; simpl; lia).
      mstep ltac:(apply setters_at_lookup; [lia |]; simpl; rewrite HS;
                  case_bool_decide; [lia |]; exact Hs).
      mstep ltac:(apply setters_assign_in_range; simpl; lia).
      mstep ltac:(apply rolenames_index_present; simpl; rewrite HR;
                  case_bool_decide; [lia |]; exact Hname).
      done.
    - exists (<[j := name]> Rj), (<[Z.to_nat j := g]> Gj), (<[Z.to_nat j := s]> Sj).
      split; [done |]. rewrite !length_insert. split; [done |]. split; [done |].
      split; [| split].
      + intros k. destruct (decide (k = Z.to_nat j)) as [-> | Hne].
        * rewrite list_lookup_insert_eq by lia. rewrite <- Hg.
          case_bool_decide; [| lia]. f_equal. lia.
        * rewrite list_lookup_insert_ne by done. rewrite HG.
          repeat case_bool_decide; (done || lia).
      + intros k. destruct (decide (k = Z.to_nat j)) as [-> | Hne].
        * rewrite list_lookup_insert_eq by lia. rewrite <- Hs.
          case_bool_decide; [| lia]. f_equal. lia.
        * rewrite list_lookup_insert_ne by done. rewrite HS.
          repeat case_bool_decide; (done || lia).
      + intros k. destruct (decide (k = j)) as [-> | Hne].
        * rewrite lookup_insert_eq. rewrite <- Hname. case_bool_decide; [done | lia].
        * rewrite lookup_insert_ne by done. rewrite HR.
          repeat case_bool_decide; (done || lia). }
  exists (delete (n - 1) R1). split.
  - unfold removerole. rewrite (bind_Returns _ _ m m m []), after_nil by done.
    rewrite bool_decide_true by (apply Hdom; lia).
    mstep ltac:(by apply getters_at_lookup).
    mstep ltac:(reflexivity).
    mstep ltac:(by apply setters_at_lookup).
    mstep ltac:(apply unpin_events_run).
    mstep ltac:(reflexivity).
    fold n. mstep ltac:(exact Hloop).
    mstep ltac:(apply getters_resize_shrink; simpl; lia).
    mstep ltac:(apply setters_resize_shrink; simpl; lia).
    mstep ltac:(reflexivity).
    unfold emit. simpl. f_equal.
    change (with_roles (delete (n - 1) R1) (take (Z.to_nat (n - 1)) G1)
              (take (Z.to_nat (n - 1)) S1) (m_custom_roles m) m =
            with_roles (delete (n - 1) R1) (delete (Z.to_nat idx) (m_getters m))
              (delete (Z.to_nat idx) (m_setters m)) (m_custom_roles m) m).
    replace (Z.to_nat (n - 1)) with (length (m_getters m) - 1)%nat by lia.
    rewrite (shifted_take_delete (m_getters m) G1 idx) by (done || lia).
    rewrite <- Hlen.
    rewrite (shifted_take_delete (m_setters m) S1 idx);
      [done | lia | done |].
    intros k. rewrite HS1. subst n. by rewrite Hlen.
  - intros k. destruct (decide (k = n - 1)) as [-> | Hne].
    + rewrite lookup_delete_eq. case_bool_decide; [lia |].
      symmetry. apply eq_None_not_Some. intros Hs%Hdom. lia.
    + rewrite lookup_delete_ne by done. rewrite HR1.
      repeat case_bool_decide; try (done || lia).
      assert (m_rolenames m !! k = None) as ->.
      { apply eq_None_not_Some. intros Hs%Hdom. lia. }
      symmetry. apply eq_None_not_Some. intros Hs%Hdom. lia.
Qed.

Lemma removerole_by_name_registered m name k :
  distinct_names m →
  m_rolenames m !! k = Some name →
  removerole_by_name name m = removerole k m.
Proof.
  intros Hdist Hk. unfold removerole_by_name.
  rewrite (bind_Returns _ _ m m m []), after_nil by done.
  by rewrite (rolenames_contains_lookup _ _ _ Hk), (rolenames_key_lookup _ _ _ Hdist Hk).
Qed.

Lemma removerole_by_name_unknown m name :
  rolenames_contains name m = false →
  removerole_by_name name m = Returns tt m [qWarning (RolenameNotFound name)].
Proof.
  intros Hc. unfold removerole_by_name.
  rewrite (bind_Returns _ _ m m m []), after_nil by done. by rewrite Hc.
Qed.

(** X17. [removerole(idx)] on a dense registry and a registered id
    releases the role's getter, and its setter if it has one, deletes the
    role's entry from the getter and setter tables, leaves the array alone,
    emits [rolesChanged], and [roles()] afterwards lists the former names
    without the one at [idx]: the roles behind it move down by one id. *)
Theorem removerole_shifts_roles_down m idx og os :
  dense_roles m →
  0 ≤ idx →
  m_getters m !! Z.to_nat idx = Some og →
  m_setters m !! Z.to_nat idx = Some os →
  ∃ m',
    removerole idx m =
      Returns tt m'
        (unprotect_from_gc (FunPtr og) :: unpin_events os ++ [rolesChanged]) ∧
    m_array m' = m_array m ∧
    m_getters m' = delete (Z.to_nat idx) (m_getters m) ∧
    m_setters m' = delete (Z.to_nat idx) (m_setters m) ∧
    ∀ l, roles m = Returns l m [] →
         roles m' = Returns (delete (Z.to_nat idx) l) m' [].
Proof.
  intros Hd Hidx Hog Hos. pose proof Hd as (Hdom & Hsize & Hlen & Hall).
  pose proof (lookup_lt_Some _ _ _ Hog) as Hrange.
  destruct (removerole_spec m idx og os Hd Hidx Hog Hos) as (R' & Hrun & HR').
  eexists. split; [exact Hrun |]. do 3 (split; [done |]).
  intros l Hl. rewrite roles_role_names in Hl. injection Hl as <-.
  rewrite roles_role_names. do 2 f_equal.
  assert (Hd' : dense_roles
    (with_roles R' (delete (Z.to_nat idx) (m_getters m))
       (delete (Z.to_nat idx) (m_setters m)) (m_custom_roles m) m)).
  { apply dense_roles_intro.
    - intros k. rewrite HR'.
      rewrite length_delete by (apply lookup_lt_is_Some_2; lia).
      case_bool_decide; rewrite Hdom; lia.
    - rewrite !length_delete by (apply lookup_lt_is_Some_2; lia). lia.
    - by apply Forall_delete. }
  apply list_eq. intros i. rewrite (role_names_lookup _ _ Hd'). simpl. rewrite HR'.
  case_bool_decide.
  - rewrite list_lookup_delete_lt by lia. by rewrite (role_names_lookup _ _ Hd).
  - rewrite list_lookup_delete_ge by lia. rewrite (role_names_lookup _ _ Hd).
    f_equal. lia.
Qed.

(** X18. On a well-formed registry [removerole(name)] of a registered name
    is [removerole] of the id that holds it; it returns, and the name is
    registered no more. *)
Theorem removerole_by_name_removes_its_role m name k :
  roles_well_formed m →
  m_rolenames m !! k = Some name →
  removerole_by_name name m = removerole k m ∧
  ∃ m' evs, removerole k m = Returns tt m' evs ∧
            rolenames_contains name m' = false.
Proof.
  intros [Hd Hdist] Hk. split; [by apply removerole_by_name_registered |].
  pose proof Hd as (Hdom & Hsize & Hlen & Hall).
  assert (Hin : 0 ≤ k < Z.of_nat (length (m_getters m))) by (apply Hdom; by eexists).
  destruct (lookup_lt_is_Some_2 (m_getters m) (Z.to_nat k)) as [og Hog]; [lia |].
  destruct (lookup_lt_is_Some_2 (m_setters m) (Z.to_nat k)) as [os Hos]; [lia |].
  destruct (removerole_spec m k og os Hd (proj1 Hin) Hog Hos) as (R' & Hrun & HR').
  eexists _, _. split; [exact Hrun |].
  destruct (rolenames_contains name _) eqn:Hc; [| done].
  apply rolenames_contains_true in Hc as [j Hj]. simpl in Hj. rewrite HR' in Hj.
  case_bool_decide; pose proof (Hdist _ _ _ Hj Hk); lia.
Qed.

(** *** The registry invariant *)

Lemma removerole_well_formed m idx :
  roles_well_formed m →
  ∃ m' evs, removerole idx m = Returns tt m' evs ∧
            roles_well_formed m' ∧ m_array m' = m_array m.
Proof.
  intros [Hd Hdist]. pose proof Hd as (Hdom & Hsize & Hlen & Hall).
  destruct (decide (is_Some (m_rolenames m !! idx))) as [Hin | Hout].
  - apply Hdom in Hin.
    destruct (lookup_lt_is_Some_2 (m_getters m) (Z.to_nat idx)) as [og Hog]; [lia |].
    destruct (lookup_lt_is_Some_2 (m_setters m) (Z.to_nat idx)) as [os Hos]; [lia |].
    destruct (removerole_spec m idx og os Hd (proj1 Hin) Hog Hos) as (R' & Hrun & HR').
    eexists _, _. split; [exact Hrun |]. split; [| done]. split.
    + apply dense_roles_intro.
      * intros k. rewrite HR'.
        rewrite length_delete by (apply lookup_lt_is_Some_2; lia).
        case_bool_decide; rewrite Hdom; lia.
      * rewrite !length_delete by (apply lookup_lt_is_Some_2; lia). lia.
      * by apply Forall_delete.
    + intros j k name. simpl. rewrite !HR'.
      repeat case_bool_decide; intros Hj Hk;
        pose proof (Hdist _ _ _ Hj Hk); lia.
  - exists m, [qWarning RemoveNonExistingRole]. split; [| done].
    unfold removerole. rewrite (bind_Returns _ _ m m m []), after_nil by done.
    by rewrite bool_decide_false.
Qed.

Lemma addrole_well_formed m name getter setter :
  roles_well_formed m →
  ∃ m' evs, addrole name getter setter m = Returns tt m' evs ∧
            roles_well_formed m' ∧ m_array m' = m_array m.
Proof.
  intros [Hd Hdist].
  destruct (rolenames_contains name m) eqn:Hc.
  { exists m, [qWarning (RoleExists name)]. split; [| done].
    unfold addrole, mbind, M_bind, get. by rewrite Hc. }
  destruct getter as [g |]; cycle 1.
  { exists m, [qWarning (InvalidGetter name)]. split; [| done].
    unfold addrole, mbind, M_bind, get. by rewrite Hc. }
  assert (∃ m' evs R, addrole name (Some g) setter m = Returns tt m' evs ∧
            m_array m' = m_array m ∧
            (R = m_rolenames m ∨ R = ∅) ∧
            m_rolenames m' = <[Z.of_nat (size R) := name]> R)
    as (m' & evs & R & Hrun & Harr & HR & HR').
  { unfold addrole, mbind, M_bind, get. rewrite Hc.
    destruct (m_custom_roles m) eqn:Hcustom.
    - destruct setter; simpl; eexists _, _, (m_rolenames m); eauto.
    - destruct setter; simpl; eexists _, _, ∅; eauto. }
  exists m', evs. split; [done |]. split; [| done]. split.
  - by apply (addrole_dense _ _ _ _ _ _ Hd Hrun).
  - intros j k nm. rewrite HR', !lookup_insert.
    repeat case_decide; intros Hj Hk; simplify_eq; try done.
    + destruct HR as [-> | ->]; [| by rewrite lookup_empty in Hk].
      by destruct (rolenames_contains_false _ _ k Hc).
    + destruct HR as [-> | ->]; [| by rewrite lookup_empty in Hj].
      by destruct (rolenames_contains_false _ _ j Hc).
    + destruct HR as [-> | ->]; [| by rewrite lookup_empty in Hj].
      by apply (Hdist j k nm).
Qed.

Lemma setrole_well_formed m idx name getter setter :
  roles_well_formed m →
  ∃ m' evs, setrole idx name getter setter m = Returns tt m' evs ∧
            roles_well_formed m' ∧ m_array m' = m_array m.
Proof.
  intros [Hd Hdist]. pose proof Hd as (Hdom & Hsize & Hlen & Hall).
  destruct (ge_size idx (Z.of_nat (length (m_getters m))) || (idx <? 0)) eqn:Hrange.
  { exists m. eexists. split; [| done]. unfold setrole.
    rewrite (bind_Returns _ _ m m m []), after_nil by done. by rewrite Hrange. }
  destruct (rolenames_contains name m && negb (rolenames_key name m =? idx)) eqn:Hname.
  { exists m. eexists. split; [| done]. unfold setrole.
    rewrite (bind_Returns _ _ m m m []), after_nil by done. by rewrite Hrange, Hname. }
  destruct getter as [g |]; cycle 1.
  { exists m. eexists. split; [| done]. unfold setrole.
    rewrite (bind_Returns _ _ m m m []), after_nil by done. by rewrite Hrange, Hname. }
  assert (Hidx : 0 ≤ idx < Z.of_nat (length (m_getters m)))
    by (by apply ge_size_guard_false).
  destruct (lookup_lt_is_Some_2 (m_getters m) (Z.to_nat idx)) as [og Hog]; [lia |].
  destruct (lookup_lt_is_Some_2 (m_setters m) (Z.to_nat idx)) as [os Hos]; [lia |].
  destruct (proj2 (Hdom idx) Hidx) as [current Hcur].
  assert (Honly : ∀ k, m_rolenames m !! k = Some name → k = idx).
  { intros k Hk. rewrite (rolenames_contains_lookup _ _ _ Hk) in Hname.
    rewrite (rolenames_key_lookup _ _ _ Hdist Hk) in Hname. simpl in Hname. lia. }
  eexists _, _. split.
  { apply (setrole_run m idx name g setter og os current); [lia | done..]. }
  split; [| done]. split.
  - apply dense_roles_intro.
    + intros k. rewrite length_insert, <- Hdom, lookup_insert_is_Some.
      split.
      * intros [<- | [_ Hk]]; [by eexists | done].
      * intros Hk. destruct (decide (idx = k)); [by left | by right].
    + by rewrite !length_insert.
    + by apply Forall_insert.
  - intros j k nm. simpl. rewrite !lookup_insert.
    repeat case_decide; intros Hj Hk; simplify_eq; try done.
    + symmetry. by apply Honly.
    + by apply Honly.
    + by apply (Hdist j k nm).
Qed.

Lemma new_ListModel_well_formed array f : roles_well_formed (new_ListModel array f).1.
Proof.
  split; [apply new_ListModel_dense |].
  intros j k name. simpl.
  intros [<- _]%lookup_singleton_Some [<- _]%lookup_singleton_Some. done.
Qed.

Lemma run_call_well_formed m c :
  roles_well_formed m →
  ∃ m' evs, run_call c m = Returns tt m' evs ∧
            roles_well_formed m' ∧ m_array m' = m_array m.
Proof.
  intros Hwf. destruct c as [name g s | idx name g s | idx | name]; simpl.
  - by apply addrole_well_formed.
  - by apply setrole_well_formed.
  - by apply removerole_well_formed.
  - destruct (rolenames_contains name m) eqn:Hc.
    + destruct (rolenames_contains_true _ _ Hc) as [k Hk].
      rewrite (removerole_by_name_registered _ _ _ (proj2 Hwf) Hk).
      by apply removerole_well_formed.
    + rewrite (removerole_by_name_unknown _ _ Hc). by eexists _, _.
Qed.

(** X14. Dense ids and distinct names are an invariant of the role
    registry: from a well-formed model, any sequence of [addrole],
    [setrole], [removerole(idx)] and [removerole(name)] calls, with any
    arguments, returns (no out-of-range access, no exception), leaves the
    registry well-formed and does not touch the array. *)
Theorem registry_calls_keep_roles_well_formed m calls :
  roles_well_formed m →
  ∃ m' evs, run_calls calls m = Returns tt m' evs ∧
            roles_well_formed m' ∧ m_array m' = m_array m.
Proof.
  revert m. induction calls as [| c calls IH]; intros m Hwf.
  - by exists m, [].
  - destruct (run_call_well_formed m c Hwf) as (m1 & evs1 & Hrun1 & Hwf1 & Harr1).
    destruct (IH m1 Hwf1) as (m2 & evs2 & Hrun2 & Hwf2 & Harr2).
    exists m2, (evs1 ++ evs2). split; [| split; [done | congruence]].
    simpl. rewrite (bind_Returns _ _ _ _ _ _ Hrun1). simpl. by rewrite Hrun2.
Qed.

(** *** [append], [remove], [clear] and [insert] composed *)

Lemma remove_last_run m a x :
  m_array m = a ++ [x] →
  remove (Z.of_nat (length a)) m =
    Returns tt (with_array a m)
      (beginRemoveRows (Z.of_nat (length a)) (Z.of_nat (length a)) ::
       hook_events m ++ [endRemoveRows; countChanged]).
Proof.
  intros Harr.
  assert (Hn : Z.of_nat (length (m_array m)) = Z.of_nat (length a) + 1)
    by (rewrite Harr, length_app; simpl; lia).
  unfold remove.
  rewrite (bind_Returns _ _ m (Z.of_nat (length (m_array m))) m []), after_nil by done.
  rewrite ge_size_in_range by lia.
  replace (Z.of_nat (length a) <? 0) with false by lia. simpl.
  rewrite (bind_Returns _ _ m tt m
    [beginRemoveRows (Z.of_nat (length a)) (Z.of_nat (length a))]) by done.
  rewrite (bind_Returns _ _ m (Z.of_nat (length (m_array m))) m []), after_nil by done.
  replace (Z.of_nat (length (m_array m)) - 1) with (Z.of_nat (length a)) by lia.
  unfold for_ne. rewrite Z.leb_refl, Z.sub_diag. simpl iterate.
  rewrite ret_bind.
  unfold jl_array_del_end, mbind, M_bind, get, modify. simpl.
  rewrite (proj2 (Z.leb_le 1 _)) by lia.
  simpl. rewrite do_update_events. simpl.
  rewrite Harr, length_app. simpl.
  replace (length a + 1 - Z.to_nat 1)%nat with (length a) by lia.
  by rewrite take_app_length.
Qed.


Lemma append_run m c record item :
  dense_roles m →
  m_constructor m = Some c →
  jl_call c (convert_to_julia <$> positional record m) = Some item →
  append record m =
    Returns tt (with_array (m_array m ++ [item]) m)
      (beginInsertRows (Z.of_nat (length (m_array m))) (Z.of_nat (length (m_array m)))
       :: hook_events m ++ [endInsertRows; countChanged]).
Proof.
  intros Hd Hc Hitem. rewrite (append_projects _ _ Hd).
  by apply (append_list_constructs _ c).
Qed.

(** X22. On a model of fewer than [INT_MAX] items (the longer array is
    then within the [int] that [remove] counts in), [append] of a record
    the constructor accepts, followed by [remove] of the row it was given,
    restores the model; the two calls emit their row signals, the hook and
    [countChanged] twice. *)
Theorem append_then_remove_last_restores m c record item :
  dense_roles m →
  m_constructor m = Some c →
  jl_call c (convert_to_julia <$> positional record m) = Some item →
  Z.of_nat (length (m_array m)) < INT_MAX →
  (append record;; remove (Z.of_nat (length (m_array m)))) m =
    Returns tt m
      ((beginInsertRows (Z.of_nat (length (m_array m))) (Z.of_nat (length (m_array m)))
        :: hook_events m ++ [endInsertRows; countChanged]) ++
       beginRemoveRows (Z.of_nat (length (m_array m))) (Z.of_nat (length (m_array m)))
        :: hook_events m ++ [endRemoveRows; countChanged]).
Proof.
  intros Hd Hc Hitem _.
  rewrite (bind_Returns _ _ _ _ _ _ (append_run _ _ _ _ Hd Hc Hitem)). cbv beta.
  rewrite (remove_last_run (with_array (m_array m ++ [item]) m) (m_array m) item)
    by done.
  simpl. by rewrite with_array_twice, with_array_id.
Qed.


Lemma move_backward_run m from to count :
  to < from → 0 < count →
  0 ≤ to →
  from + count ≤ Z.of_nat (length (m_array m)) →
  from + count ≤ INT_MAX →
  ∃ a, move from to count m =
         Returns tt (with_array a m)
           (beginMoveRows to (from - 1) (from + count) ::
            hook_events m ++ [endMoveRows]) ∧
       length a = length (m_array m) ∧
       ∀ k : nat,
         a !! k = m_array m !!
           Z.to_nat (source_index to (to + count) (from - to) (Z.of_nat k)).
Proof.
  intros Hlt Hcount Hto Hlen Hmax.
  destruct (move_performed m from to count to (to + count) (from - to))
    as (a & Hmove & Halen & Ha); [lia | lia | | | lia | lia |].
  { apply normalize_backward; [done | |]; unfold in_int, INT_MIN, INT_MAX in *; lia. }
  { apply out_of_bounds_accepts; unfold in_int, INT_MIN, INT_MAX in *; lia. }
  exists a. split; [| done]. rewrite Hmove. do 2 f_equal. f_equal; lia.
Qed.

(** X20. [insert(index, record)] with [0 <= index <= size] and a record
    the constructor accepts puts the constructed item at [index] and keeps
    the items before and behind it in order.  The views are told of a row
    appended at the end and then, unless [index] is the end, of the move of
    that row to [index]. *)
Theorem insert_places_item_at_index m c record item index :
  dense_roles m →
  m_constructor m = Some c →
  jl_call c (convert_to_julia <$> positional record m) = Some item →
  0 ≤ index ≤ Z.of_nat (length (m_array m)) →
  Z.of_nat (length (m_array m)) < INT_MAX →
  insert index record m =
    Returns tt
      (with_array (take (Z.to_nat index) (m_array m) ++
                   item :: drop (Z.to_nat index) (m_array m)) m)
      ((beginInsertRows (Z.of_nat (length (m_array m))) (Z.of_nat (length (m_array m)))
        :: hook_events m ++ [endInsertRows; countChanged]) ++
       if bool_decide (index = Z.of_nat (length (m_array m))) then []
       else beginMoveRows index (Z.of_nat (length (m_array m)) - 1)
              (Z.of_nat (length (m_array m)) + 1) ::
            hook_events m ++ [endMoveRows]).
Proof.
  intros Hd Hc Hitem Hindex Hmax. set (n := Z.of_nat (length (m_array m))) in *.
  unfold insert.
  rewrite (bind_Returns _ _ _ _ _ _ (append_run _ _ _ _ Hd Hc Hitem)). cbv beta.
  set (m1 := with_array (m_array m ++ [item]) m).
  rewrite (bind_Returns _ _ m1 (n + 1) m1 []), after_nil.
  2: { unfold array_size, mbind, M_bind, get. simpl. rewrite length_app. simpl.
       do 2 f_equal. lia. }
  replace (n + 1 - 1) with n by lia.
  case_bool_decide as Hend.
  - subst index. unfold move. rewrite Z.eqb_refl. simpl. subst m1.
    rewrite app_nil_r. do 2 f_equal.
    rewrite take_ge, drop_ge by lia. done.
  - destruct (move_backward_run m1 n index 1) as (a & Hmove & Halen & Ha);
      [lia | lia | lia | subst m1; simpl; rewrite length_app; simpl; lia | lia |].
    rewrite Hmove. simpl. subst m1. simpl.
    replace (index + 1 + (n - index)) with (n + 1) by lia.
    replace (index + (n - index) - 1) with (n - 1) by lia.
    replace a with (take (Z.to_nat index) (m_array m) ++
                    item :: drop (Z.to_nat index) (m_array m)); [done |].
    symmetry. apply list_eq. intros k. rewrite Ha. simpl in *. unfold source_index.
    rewrite length_app in Halen. simpl in Halen.
    assert (Htake : length (take (Z.to_nat index) (m_array m)) = Z.to_nat index)
      by (rewrite length_take; lia).
    repeat case_bool_decide.
    + (* index < k <= n *)
      rewrite lookup_app_l by lia.
      rewrite lookup_app_r by lia. rewrite Htake.
      replace (k - Z.to_nat index)%nat with (S (k - Z.to_nat index - 1)) by lia.
      simpl. rewrite lookup_drop. f_equal. lia.
    + (* k = index *)
      rewrite lookup_app_r by lia.
      replace (Z.to_nat (Z.of_nat k + (n - index)) - length (m_array m))%nat
        with 0%nat by lia.
      rewrite lookup_app_r by lia. rewrite Htake.
      by replace (k - Z.to_nat index)%nat with 0%nat by lia.
    + destruct (decide (k < Z.to_nat index)%nat).
      * rewrite lookup_app_l by lia. rewrite lookup_app_l by lia.
        rewrite lookup_take_lt by lia. f_equal. lia.
      * rewrite !lookup_ge_None_2; [done | |].
        -- rewrite length_app, Htake. simpl. rewrite length_drop. lia.
        -- rewrite length_app. simpl. lia.
Qed.

(** X21. [insert] with an index behind the end or negative appends the
    item all the same and leaves it at the end: the move that follows is
    rejected with the invalid-indexing warning. *)
Theorem insert_out_of_range_appends m c record item index :
  dense_roles m →
  m_constructor m = Some c →
  jl_call c (convert_to_julia <$> positional record m) = Some item →
  Z.of_nat (length (m_array m)) < index ∨
  (index < 0 ∧ in_int (Z.of_nat (length (m_array m)) - index) ∧ in_int (index + 1)) →
  insert index record m =
    Returns tt (with_array (m_array m ++ [item]) m)
      ((beginInsertRows (Z.of_nat (length (m_array m))) (Z.of_nat (length (m_array m)))
        :: hook_events m ++ [endInsertRows; countChanged]) ++
       [qWarning InvalidMove]).
Proof.
  intros Hd Hc Hitem Hindex. set (n := Z.of_nat (length (m_array m))) in *.
  unfold insert.
  rewrite (bind_Returns _ _ _ _ _ _ (append_run _ _ _ _ Hd Hc Hitem)). cbv beta.
  set (m1 := with_array (m_array m ++ [item]) m).
  assert (Hn1 : Z.of_nat (length (m_array m1)) = n + 1).
  { subst m1. simpl. rewrite length_app. simpl. lia. }
  rewrite (bind_Returns _ _ m1 (n + 1) m1 []), after_nil.
  2: { unfold array_size, mbind, M_bind, get. simpl. rewrite length_app. simpl.
       do 2 f_equal. lia. }
  replace (n + 1 - 1) with n by lia.
  assert (Hmove : move n index 1 m1 = Returns tt m1 [qWarning InvalidMove]).
  { clearbody m1. unfold move. replace ((n =? index) || (1 =? 0)) with false by lia.
    destruct Hindex as [Hbig | (Hneg & Hi1 & Hi2)].
    - rewrite (bind_Returns _ _ _ _ _ _ (normalize_forward m1 n index 1 ltac:(lia))),
        after_nil.
      assert (out_of_bounds n index 1 m1 = Returns true m1 []) as Hguard.
      { unfold out_of_bounds, array_size, mbind, M_bind, get. simpl. rewrite Hn1.
        replace ((n <? 0) || ge_size n (n + 1) || (index <? 0) || ge_size index (n + 1))
          with true; [done |].
        unfold ge_size. destruct size_is_unsigned; lia. }
      by rewrite (bind_Returns _ _ _ _ _ _ Hguard).
    - rewrite (bind_Returns _ _ _ _ _ _
        (normalize_backward m1 n index 1 ltac:(lia) Hi1 Hi2)), after_nil.
      assert (out_of_bounds index (index + 1) (n - index) m1 = Returns true m1 [])
        as Hguard.
      { unfold out_of_bounds, array_size, mbind, M_bind, get. simpl.
        by replace (index <? 0) with true by lia. }
      by rewrite (bind_Returns _ _ _ _ _ _ Hguard). }
  by rewrite Hmove.
Qed.

(** X28. On a dense registry [insert(index, record)] is [insert_list] on
    the record's positional arguments: the items of an array, or the values
    of the properties the roles name, in id order. *)
Theorem insert_is_insert_list_of_positional m index record :
  dense_roles m →
  insert index record m = insert_list index (positional record m) m.
Proof.
  intros Hd. unfold insert, insert_list, mbind, M_bind.
  by rewrite (append_projects _ _ Hd).
Qed.

(** *** [move] as an exchange of neighbouring blocks *)

Lemma exchange_blocks_lookup {X} (A B C D a : list X) :
  (∀ k : nat,
     a !! k = (A ++ B ++ C ++ D) !!
       Z.to_nat (source_index (Z.of_nat (length A))
                   (Z.of_nat (length A) + Z.of_nat (length C))
                   (Z.of_nat (length B)) (Z.of_nat k))) →
  a = A ++ C ++ B ++ D.
Proof.
  intros Ha. apply list_eq. intros k. rewrite Ha. unfold source_index.
  repeat case_bool_decide.
  - (* k in the block that arrives *)
    rewrite (lookup_app_r A (B ++ C ++ D)), (lookup_app_l B (C ++ D)) by lia.
    rewrite (lookup_app_r A (C ++ B ++ D)), (lookup_app_r C (B ++ D)),
      (lookup_app_l B D) by lia.
    f_equal. lia.
  - (* k in the block that gives way *)
    rewrite (lookup_app_r A (B ++ C ++ D)), (lookup_app_r B (C ++ D)),
      (lookup_app_l C D) by lia.
    rewrite (lookup_app_r A (C ++ B ++ D)), (lookup_app_l C (B ++ D)) by lia.
    f_equal. lia.
  - rewrite Nat2Z.id. destruct (decide (k < length A)%nat).
    + by rewrite !(lookup_app_l A) by lia.
    + rewrite (lookup_app_r A (B ++ C ++ D)), (lookup_app_r B (C ++ D)),
        (lookup_app_r C D) by lia.
      rewrite (lookup_app_r A (C ++ B ++ D)), (lookup_app_r C (B ++ D)),
        (lookup_app_r B D) by lia.
      f_equal. lia.
Qed.

(** X24. Moving a block towards the back: on [A ++ B ++ C ++ D] with [B]
    and [C] non-empty, [move(|A|, |A|+|C|, |B|)] gives [A ++ C ++ B ++ D]:
    the block [B] and the block [C] behind it change places, each keeping
    its order. *)
Theorem move_block_towards_back m (A B C D : list jl_value) :
  m_array m = A ++ B ++ C ++ D →
  B ≠ [] → C ≠ [] →
  Z.of_nat (length (m_array m)) ≤ INT_MAX →
  move (Z.of_nat (length A)) (Z.of_nat (length A) + Z.of_nat (length C))
       (Z.of_nat (length B)) m =
    Returns tt (with_array (A ++ C ++ B ++ D) m)
      (beginMoveRows (Z.of_nat (length A))
         (Z.of_nat (length A) + Z.of_nat (length B) - 1)
         (Z.of_nat (length A) + Z.of_nat (length C) + Z.of_nat (length B)) ::
       hook_events m ++ [endMoveRows]).
Proof.
  intros Harr HB HC Hmax.
  assert (length B ≠ 0%nat) by (by destruct B).
  assert (length C ≠ 0%nat) by (by destruct C).
  assert (Hlen : Z.of_nat (length (m_array m)) =
    Z.of_nat (length A) + Z.of_nat (length B) + Z.of_nat (length C) +
    Z.of_nat (length D)).
  { rewrite Harr, !length_app. lia. }
  destruct (move_performed m (Z.of_nat (length A))
              (Z.of_nat (length A) + Z.of_nat (length C)) (Z.of_nat (length B))
              (Z.of_nat (length A)) (Z.of_nat (length A) + Z.of_nat (length C))
              (Z.of_nat (length B)))
    as (a & Hmove & Halen & Ha); [lia | lia | | | lia | lia |].
  { apply normalize_forward. lia. }
  { apply out_of_bounds_accepts; unfold in_int, INT_MIN, INT_MAX in *; lia. }
  rewrite Hmove. do 2 f_equal.
  apply exchange_blocks_lookup. intros k. by rewrite Ha, Harr.
Qed.

(** X25. Moving a block towards the front: on [A ++ C ++ B ++ D] with [B]
    and [C] non-empty, [move(|A|+|C|, |A|, |B|)] gives [A ++ B ++ C ++ D];
    the views are told of the move of [C] behind [B], the rewritten form of
    the call. *)
Theorem move_block_towards_front m (A B C D : list jl_value) :
  m_array m = A ++ C ++ B ++ D →
  B ≠ [] → C ≠ [] →
  Z.of_nat (length (m_array m)) ≤ INT_MAX →
  move (Z.of_nat (length A) + Z.of_nat (length C)) (Z.of_nat (length A))
       (Z.of_nat (length B)) m =
    Returns tt (with_array (A ++ B ++ C ++ D) m)
      (beginMoveRows (Z.of_nat (length A))
         (Z.of_nat (length A) + Z.of_nat (length C) - 1)
         (Z.of_nat (length A) + Z.of_nat (length C) + Z.of_nat (length B)) ::
       hook_events m ++ [endMoveRows]).
Proof.
  intros Harr HB HC Hmax.
  assert (length B ≠ 0%nat) by (by destruct B).
  assert (length C ≠ 0%nat) by (by destruct C).
  assert (Hlen : Z.of_nat (length (m_array m)) =
    Z.of_nat (length A) + Z.of_nat (length B) + Z.of_nat (length C) +
    Z.of_nat (length D)).
  { rewrite Harr, !length_app. lia. }
  destruct (move_backward_run m (Z.of_nat (length A) + Z.of_nat (length C))
              (Z.of_nat (length A)) (Z.of_nat (length B)))
    as (a & Hmove & Halen & Ha); [lia | lia | lia | lia | lia |].
  rewrite Hmove.
  do 2 f_equal.
  apply exchange_blocks_lookup. intros k. rewrite Ha, Harr. do 2 f_equal.
  f_equal; lia.
Qed.

(** *** Collector pins *)

Lemma for_each_emit {X} (xs : list X) (e : X → event) m :
  for_each xs (λ x, emit (e x)) m = Returns tt m (e <$> xs).
Proof.
  induction xs as [| x xs IH]; [done |]. simpl.
  rewrite (bind_Returns _ _ m tt m [e x]) by done. by rewrite IH.
Qed.

Lemma non_null_cons_Some f (S : list (option jl_function)) :
  non_null (Some f :: S) = Some f :: non_null S.
Proof. unfold non_null. by rewrite filter_cons_True by done. Qed.

Lemma non_null_cons_None (S : list (option jl_function)) :
  non_null (None :: S) = non_null S.
Proof. unfold non_null. by rewrite filter_cons_False by (by intros []). Qed.

Lemma for_each_unpin (S : list (option jl_function)) m :
  for_each S (λ f,
    match f with
    | Some _ => emit (unprotect_from_gc (FunPtr f))
    | None => mret tt
    end) m = Returns tt m (unprotect_from_gc ∘ FunPtr <$> non_null S).
Proof.
  induction S as [| [f |] S IH]; [done | |].
  - rewrite non_null_cons_Some. cbn [for_each].
    rewrite (bind_Returns _ _ m tt m [unprotect_from_gc (FunPtr (Some f))]) by done.
    by rewrite IH.
  - rewrite non_null_cons_None. cbn [for_each].
    rewrite (bind_Returns _ _ m tt m []), after_nil by done.
    by rewrite IH.
Qed.

Lemma delete_ListModel_run m :
  delete_ListModel m =
    Returns tt m
      (unprotect_from_gc ArrayPtr :: unpin_events (m_update_array m) ++
       (unprotect_from_gc <$> role_pins m)).
Proof.
  unfold delete_ListModel. rewrite (bind_Returns _ _ m m m []), after_nil by done.
  rewrite (bind_Returns _ _ m tt m [unprotect_from_gc ArrayPtr]) by done.
  rewrite (bind_Returns _ _ m tt m (unpin_events (m_update_array m)))
    by (by destruct (m_update_array m)).
  mstep ltac:(apply (for_each_emit _ (λ f, unprotect_from_gc (FunPtr f)))).
  rewrite for_each_unpin. simpl. do 2 f_equal. f_equal.
  unfold role_pins. by rewrite <- list_fmap_compose, fmap_app.
Qed.

Lemma protected_app evs1 evs2 : protected (evs1 ++ evs2) = protected evs1 ++ protected evs2.
Proof. apply omap_app. Qed.

Lemma released_app evs1 evs2 : released (evs1 ++ evs2) = released evs1 ++ released evs2.
Proof. apply omap_app. Qed.

Lemma protected_pin_events s : protected (pin_events s) = FunPtr <$> non_null [s].
Proof. by destruct s. Qed.

Lemma released_pin_events s : released (pin_events s) = [].
Proof. by destruct s. Qed.

Lemma protected_unpin_events s : protected (unpin_events s) = [].
Proof. by destruct s. Qed.

Lemma released_unpin_events s : released (unpin_events s) = FunPtr <$> non_null [s].
Proof. by destruct s. Qed.

Lemma protected_protect p evs :
  protected (protect_from_gc p :: evs) = p :: protected evs.
Proof. done. Qed.

Lemma protected_unprotect p evs :
  protected (unprotect_from_gc p :: evs) = protected evs.
Proof. done. Qed.

Lemma released_protect p evs :
  released (protect_from_gc p :: evs) = released evs.
Proof. done. Qed.

Lemma released_unprotect p evs :
  released (unprotect_from_gc p :: evs) = p :: released evs.
Proof. done. Qed.

Lemma protected_unprotects (l : list jl_ptr) : protected (unprotect_from_gc <$> l) = [].
Proof. by induction l. Qed.

Lemma released_unprotects (l : list jl_ptr) : released (unprotect_from_gc <$> l) = l.
Proof. induction l as [| p l IH]; [done |]. simpl. f_equal. exact IH. Qed.

Lemma insert_Permutation {X} (l : list X) i x old :
  l !! i = Some old → <[i:=x]> l ≡ₚ x :: delete i l.
Proof.
  intros Hi. pose proof (lookup_lt_Some _ _ _ Hi).
  rewrite insert_take_drop by done. rewrite delete_take_drop.
  by rewrite <- Permutation_middle.
Qed.

Lemma non_null_delete S i os :
  S !! i = Some os → non_null S ≡ₚ non_null [os] ++ non_null (delete i S).
Proof.
  intros Hi. unfold non_null. rewrite <- filter_app. simpl.
  by rewrite <- (delete_Permutation S i os).
Qed.

Lemma non_null_insert S i s os :
  S !! i = Some os → non_null (<[i:=s]> S) ≡ₚ non_null [s] ++ non_null (delete i S).
Proof.
  intros Hi. unfold non_null. rewrite <- filter_app. simpl.
  by rewrite (insert_Permutation S i s os).
Qed.

Lemma pins_kept_refused m w : pins_kept m [qWarning w] m.
Proof. unfold pins_kept. done. Qed.

Lemma pins_kept_trans m1 evs1 m2 evs2 m3 :
  pins_kept m1 evs1 m2 → pins_kept m2 evs2 m3 → pins_kept m1 (evs1 ++ evs2) m3.
Proof.
  unfold pins_kept. intros H1 H2. rewrite protected_app, released_app.
  rewrite <- (assoc_L (++) (released evs1)), <- H2.
  rewrite (assoc_L (++) (released evs1)), (comm (++) (released evs1)).
  rewrite <- (assoc_L (++) (protected evs2)), <- H1.
  solve_Permutation.
Qed.

Lemma addrole_pins m name getter setter :
  roles_well_formed m → m_custom_roles m = true →
  ∃ m' evs, addrole name getter setter m = Returns tt m' evs ∧
            m_custom_roles m' = true ∧ m_update_array m' = m_update_array m ∧
            pins_kept m evs m'.
Proof.
  intros Hwf Hcustom. unfold addrole, mbind, M_bind, get.
  destruct (rolenames_contains name m).
  { eexists _, _. split; [done |]. do 2 (split; [done |]). apply pins_kept_refused. }
  destruct getter as [g |]; cycle 1.
  { eexists _, _. split; [done |]. do 2 (split; [done |]). apply pins_kept_refused. }
  rewrite Hcustom. simpl.
  exists (with_roles (<[rolenames_size m := name]> (m_rolenames m))
            (m_getters m ++ [Some g]) (m_setters m ++ [setter]) (m_custom_roles m) m),
         (protect_from_gc (FunPtr (Some g)) :: pin_events setter ++ [rolesChanged]).
  split; [by destruct setter |]. split; [done |]. split; [done |].
  unfold pins_kept. rewrite protected_protect, released_protect.
  rewrite protected_app, released_app, protected_pin_events, released_pin_events.
  unfold role_pins. simpl. unfold non_null. rewrite filter_app.
  rewrite !fmap_app. simpl. solve_Permutation.
Qed.

Lemma setrole_pins m idx name getter setter :
  roles_well_formed m →
  ∃ m' evs, setrole idx name getter setter m = Returns tt m' evs ∧
            m_custom_roles m' = m_custom_roles m ∧
            m_update_array m' = m_update_array m ∧
            pins_kept m evs m'.
Proof.
  intros [Hd Hdist]. pose proof Hd as (Hdom & Hsize & Hlen & Hall).
  destruct (ge_size idx (Z.of_nat (length (m_getters m))) || (idx <? 0)) eqn:Hrange.
  { exists m. eexists. split; [| do 2 (split; [done |]); apply pins_kept_refused].
    unfold setrole.
    rewrite (bind_Returns _ _ m m m []), after_nil by done. by rewrite Hrange. }
  destruct (rolenames_contains name m && negb (rolenames_key name m =? idx)) eqn:Hname.
  { exists m. eexists. split; [| do 2 (split; [done |]); apply pins_kept_refused].
    unfold setrole.
    rewrite (bind_Returns _ _ m m m []), after_nil by done. by rewrite Hrange, Hname. }
  destruct getter as [g |]; cycle 1.
  { exists m. eexists. split; [| do 2 (split; [done |]); apply pins_kept_refused].
    unfold setrole.
    rewrite (bind_Returns _ _ m m m []), after_nil by done. by rewrite Hrange, Hname. }
  assert (Hidx : 0 ≤ idx < Z.of_nat (length (m_getters m)))
    by (by apply ge_size_guard_false).
  destruct (lookup_lt_is_Some_2 (m_getters m) (Z.to_nat idx)) as [og Hog]; [lia |].
  destruct (lookup_lt_is_Some_2 (m_setters m) (Z.to_nat idx)) as [os Hos]; [lia |].
  destruct (proj2 (Hdom idx) Hidx) as [current Hcur].
  assert (Honly : ∀ k, m_rolenames m !! k = Some name → k = idx).
  { intros k Hk. rewrite (rolenames_contains_lookup _ _ _ Hk) in Hname.
    rewrite (rolenames_key_lookup _ _ _ Hdist Hk) in Hname. simpl in Hname. lia. }
  eexists _, _. split.
  { apply (setrole_run m idx name g setter og os current); [lia | done..]. }
  split; [done |]. split; [done |].
  unfold pins_kept. rewrite protected_unprotect, released_unprotect.
  rewrite !protected_app, !released_app, protected_unpin_events, released_unpin_events.
  rewrite protected_protect, released_protect.
  rewrite !protected_app, !released_app, protected_pin_events, released_pin_events.
  assert (protected [if bool_decide (current = name)
            then dataChanged 0 (Z.of_nat (length (m_array m)) - 1) [idx]
            else rolesChanged] = []) as -> by (by case_bool_decide).
  assert (released [if bool_decide (current = name)
            then dataChanged 0 (Z.of_nat (length (m_array m)) - 1) [idx]
            else rolesChanged] = []) as -> by (by case_bool_decide).
  unfold role_pins. simpl.
  rewrite (delete_Permutation (m_getters m) _ _ Hog) at 1.
  rewrite (non_null_delete (m_setters m) _ _ Hos).
  rewrite (insert_Permutation (m_getters m) _ (Some g) _ Hog).
  rewrite (non_null_insert (m_setters m) _ setter _ Hos).
  rewrite !fmap_app. simpl. solve_Permutation.
Qed.

Lemma removerole_pins m idx :
  roles_well_formed m →
  ∃ m' evs, removerole idx m = Returns tt m' evs ∧
            m_custom_roles m' = m_custom_roles m ∧
            m_update_array m' = m_update_array m ∧
            pins_kept m evs m'.
Proof.
  intros [Hd Hdist]. pose proof Hd as (Hdom & Hsize & Hlen & Hall).
  destruct (decide (is_Some (m_rolenames m !! idx))) as [Hin | Hout].
  - apply Hdom in Hin.
    destruct (lookup_lt_is_Some_2 (m_getters m) (Z.to_nat idx)) as [og Hog]; [lia |].
    destruct (lookup_lt_is_Some_2 (m_setters m) (Z.to_nat idx)) as [os Hos]; [lia |].
    destruct (removerole_spec m idx og os Hd (proj1 Hin) Hog Hos) as (R' & Hrun & HR').
    eexists _, _. split; [exact Hrun |]. split; [done |]. split; [done |].
    unfold pins_kept. rewrite protected_unprotect, released_unprotect.
    rewrite !protected_app, !released_app, protected_unpin_events, released_unpin_events.
    unfold role_pins. simpl.
    rewrite (delete_Permutation (m_getters m) _ _ Hog) at 1.
    rewrite (non_null_delete (m_setters m) _ _ Hos).
    rewrite !fmap_app. simpl. solve_Permutation.
  - exists m, [qWarning RemoveNonExistingRole].
    split; [| do 2 (split; [done |]); apply pins_kept_refused].
    unfold removerole. rewrite (bind_Returns _ _ m m m []), after_nil by done.
    by rewrite bool_decide_false.
Qed.

Lemma run_call_pins m c :
  roles_well_formed m → m_custom_roles m = true →
  ∃ m' evs, run_call c m = Returns tt m' evs ∧
            roles_well_formed m' ∧ m_custom_roles m' = true ∧
            m_update_array m' = m_update_array m ∧
            pins_kept m evs m'.
Proof.
  intros Hwf Hcustom.
  destruct (run_call_well_formed m c Hwf) as (m' & evs & Hrun & Hwf' & _).
  assert (∃ m'' evs', run_call c m = Returns tt m'' evs' ∧
            m_custom_roles m'' = m_custom_roles m ∧
            m_update_array m'' = m_update_array m ∧
            pins_kept m evs' m'') as (m'' & evs' & Hrun' & Hc' & Hu' & Hpins).
  { destruct c as [name g s | idx name g s | idx | name]; simpl.
    - destruct (addrole_pins m name g s Hwf Hcustom) as (? & ? & ? & ? & ? & ?).
      eexists _, _. split; [done |]. split; [congruence | done].
    - by apply setrole_pins.
    - by apply removerole_pins.
    - destruct (rolenames_contains name m) eqn:Hc.
      + destruct (rolenames_contains_true _ _ Hc) as [k Hk].
        rewrite (removerole_by_name_registered _ _ _ (proj2 Hwf) Hk).
        by apply removerole_pins.
      + rewrite (removerole_by_name_unknown _ _ Hc).
        eexists _, _. split; [done |]. do 2 (split; [done |]). apply pins_kept_refused. }
  rewrite Hrun in Hrun'. injection Hrun' as <- <-.
  exists m', evs. split; [done |]. split; [done |]. split; [congruence |]. done.
Qed.

Lemma run_calls_pins m calls :
  roles_well_formed m →
  m_custom_roles m = true →
  ∃ m' evs, run_calls calls m = Returns tt m' evs ∧
            m_custom_roles m' = true ∧
            m_update_array m' = m_update_array m ∧
            protected evs ++ role_pins m ≡ₚ released evs ++ role_pins m'.
Proof.
  revert m. induction calls as [| c calls IH]; intros m Hwf Hcustom.
  - by exists m, [].
  - destruct (run_call_pins m c Hwf Hcustom)
      as (m1 & evs1 & Hrun1 & Hwf1 & Hc1 & Hu1 & Hp1).
    destruct (IH m1 Hwf1 Hc1) as (m2 & evs2 & Hrun2 & Hc2 & Hu2 & Hp2).
    exists m2, (evs1 ++ evs2). split; [| split; [done | split; [congruence |]]].
    + simpl. rewrite (bind_Returns _ _ _ _ _ _ Hrun1). simpl. by rewrite Hrun2.
    + by apply (pins_kept_trans m evs1 m1 evs2 m2).
Qed.

(** X26. Over the life of a model that leaves default mode at once, the
    pins balance: construct the model, add a first custom role, run any
    sequence of registry calls, destroy the model.  Every call returns, and
    the pointers passed to [protect_from_gc] are, with repetitions, the
    pointers passed to [unprotect_from_gc]. *)
Theorem pins_balance_over_lifetime array f name g setter calls :
  name ≠ "string"%string →
  ∃ m1 evs1 m2 evs2 evs3,
    addrole name (Some g) setter (new_ListModel array f).1 = Returns tt m1 evs1 ∧
    run_calls calls m1 = Returns tt m2 evs2 ∧
    delete_ListModel m2 = Returns tt m2 evs3 ∧
    protected ((new_ListModel array f).2 ++ evs1 ++ evs2 ++ evs3) ≡ₚ
    released ((new_ListModel array f).2 ++ evs1 ++ evs2 ++ evs3).
Proof.
  intros Hname. set (m0 := (new_ListModel array f).1).
  assert (Hc : rolenames_contains name m0 = false).
  { destruct (rolenames_contains name m0) eqn:Hc; [| done].
    apply rolenames_contains_true in Hc as [k Hk]. simpl in Hk.
    apply lookup_singleton_Some in Hk as [_ Hk]. by destruct Hname. }
  set (m1 := with_roles {[ 0 := name ]} [Some g] [setter] true m0).
  assert (Hwf1 : roles_well_formed m1).
  { split.
    - apply dense_roles_intro; [| done | by repeat constructor].
      intros k. simpl. split.
      + intros [x Hx]. apply lookup_singleton_Some in Hx. lia.
      + intros ?. assert (k = 0) as -> by lia. by rewrite lookup_singleton_eq.
    - intros j k nm. simpl.
      intros [<- _]%lookup_singleton_Some [<- _]%lookup_singleton_Some. done. }
  destruct (run_calls_pins m1 calls Hwf1 eq_refl)
    as (m2 & evs2 & Hrun2 & _ & Hu2 & Hp2).
  eexists m1, _, m2, evs2, _.
  split; [by apply addrole_default_run |]. split; [done |].
  split; [apply delete_ListModel_run |].
  rewrite Hu2. simpl m_update_array.
  change ((new_ListModel array f).2) with (protect_from_gc ArrayPtr :: pin_events f).
  rewrite !protected_app, !released_app.
  rewrite !protected_protect, !released_protect, !protected_unprotect,
    !released_unprotect.
  rewrite !protected_app, !released_app.
  rewrite !protected_pin_events, !released_pin_events, !protected_unpin_events,
    !released_unpin_events, protected_unprotects, released_unprotects.
  change (protected [rolesChanged]) with (@nil jl_ptr).
  change (released [rolesChanged]) with (@nil jl_ptr).
  transitivity (ArrayPtr :: (FunPtr <$> non_null [f]) ++
                (protected evs2 ++ role_pins m1)).
  { unfold role_pins. simpl. rewrite !app_nil_r. solve_Permutation. }
  rewrite Hp2. simpl. solve_Permutation.
Qed.

(** X27. A model destroyed in default mode releases a pointer nobody
    pinned: the constructor stores the getter [string] without pinning it,
    and the destructor releases every getter.  Construction followed by
    destruction releases what was pinned and, on top, the [string] getter. *)
Theorem default_roles_destructor_releases_unpinned_getter array f :
  ∃ evs,
    delete_ListModel (new_ListModel array f).1 =
      Returns tt (new_ListModel array f).1 evs ∧
    released ((new_ListModel array f).2 ++ evs) ≡ₚ
      FunPtr (Some string_fn) :: protected ((new_ListModel array f).2 ++ evs).
Proof.
  eexists. split; [apply delete_ListModel_run |].
  change ((new_ListModel array f).2) with (protect_from_gc ArrayPtr :: pin_events f).
  simpl m_update_array.
  rewrite !protected_app, !released_app.
  rewrite !protected_protect, !released_protect, !protected_unprotect,
    !released_unprotect.
  rewrite !protected_app, !released_app.
  rewrite !protected_pin_events, !released_pin_events, !protected_unpin_events,
    !released_unpin_events, protected_unprotects, released_unprotects.
  unfold role_pins. simpl. rewrite !app_nil_r. solve_Permutation.
Qed.

End Properties.

(** * The model at concrete inputs *)

Example addrole_gives_demo_named_model u :
  addrole (H := demo_host u) "name" (Some fn_get) (Some fn_set) (demo_model u [10; 20]) =
    Returns tt (demo_named_model u [10; 20])
      [protect_from_gc (H := demo_host u) (FunPtr (Some fn_get));
       protect_from_gc (H := demo_host u) (FunPtr (Some fn_set));
       rolesChanged].
Proof. destruct u; vm_compute; reflexivity. Qed.

(** C1. [insert(0, record)] on a model over three items and without a
    constructor: [append] logs that no constructor is set and adds nothing,
    and the [move] that follows still runs, on the item that was last.  The
    array changes from [10; 20; 30] to [30; 10; 20]. *)
Theorem insert_without_constructor_moves_last_item u :
  insert (H := demo_host u) 0 (JSArray [7]) (demo_model u [10; 20; 30]) =
    Returns tt (with_array (H := demo_host u) [30; 10; 20] (demo_model u [10; 20; 30]))
      [qWarning NoConstructor; beginMoveRows 0 1 3; endMoveRows].
Proof. destruct u; vm_compute; reflexivity. Qed.

(** C4. [move(0, 1, -1)] on a model over two items: the guard lets the call
    through, and the block shift that follows is undefined (its buffer has a
    negative size and its save loop counts up from 0 towards -1). *)
Theorem move_negative_count_passes_guard u :
  out_of_bounds (H := demo_host u) 0 1 (-1) (demo_model u [10; 20]) =
    Returns false (demo_model u [10; 20]) [] ∧
  shift_block (H := demo_host u) 0 1 (-1) (demo_model u [10; 20]) = Undefined ∧
  move (H := demo_host u) 0 1 (-1) (demo_model u [10; 20]) = Undefined.
Proof. destruct u; vm_compute; repeat split; reflexivity. Qed.

(** C5. On a model with the one default role, [rolesetter(1)] indexes the
    setter table at 1, past its single entry, and so does [setData] with
    role 1: both are undefined, where a failure report is claimed. *)
Theorem setData_role_out_of_range_is_undefined u :
  rolesetter (H := demo_host u) 1 (demo_model u [10; 20]) = Undefined ∧
  setData (H := demo_host u) 0 5 1 (demo_model u [10; 20]) = Undefined.
Proof. destruct u; vm_compute; split; reflexivity. Qed.

(** C7. On a model whose only role is "name", [setProperty(0, "age", 99)]:
    the lookup of the unknown name yields key 0, and the setter of role 0
    stores 99 in the first item. *)
Theorem setProperty_unknown_name_writes_role_0 u :
  rolenames_key "age" (demo_named_model u [10; 20]) = 0 ∧
  setProperty (H := demo_host u) 0 "age" 99 (demo_named_model u [10; 20]) =
    Returns tt (with_array (H := demo_host u) [99; 20] (demo_named_model u [10; 20]))
      [setter_called (H := demo_host u) fn_set 99 1; dataChanged 0 0 [0]].
Proof. destruct u; vm_compute; split; reflexivity. Qed.

(** C8. [setconstructor(fn_make)] followed by the destructor: the
    constructor is pinned, and the destructor releases the array and the
    getter only; no [unprotect_from_gc] is emitted for [fn_make]. *)
Theorem destructor_leaves_constructor_pinned u :
  (setconstructor (H := demo_host u) (Some fn_make);; delete_ListModel)
      (demo_model u [10; 20]) =
    Returns tt (with_constructor (H := demo_host u) (Some fn_make) (demo_model u [10; 20]))
      [protect_from_gc (H := demo_host u) (FunPtr (Some fn_make));
       unprotect_from_gc ArrayPtr;
       unprotect_from_gc (H := demo_host u) (FunPtr (Some fn_string))].
Proof. destruct u; vm_compute; reflexivity. Qed.

Lemma addrole_string_on_default_roles_witness :
  holds_default_roles (demo_model true [10; 20]) ∧
  addrole (H := demo_host true) "string" (Some fn_get) (Some fn_set)
      (demo_model true [10; 20])
    = Returns tt (demo_model true [10; 20]) [qWarning (RoleExists "string")].
Proof.
  assert (Hd : holds_default_roles (demo_model true [10; 20])).
  { repeat split; reflexivity. }
  split; [exact Hd |].
  exact (addrole_string_on_default_roles (H := demo_host true) _ _ _ Hd).
Defined.

Lemma setData_position_is_one_past_data_index_witness :
  setData (H := demo_host true) 1 99 0 (demo_named_model true [10; 20]) =
    Returns true (with_array (H := demo_host true) [10; 99] (demo_named_model true [10; 20]))
      [setter_called (H := demo_host true) fn_set 99 2; dataChanged 1 1 [0]] ∧
  ∃ item, [10; 20] !! 1%nat = Some item ∧
          data (H := demo_host true) 1 0 (demo_named_model true [10; 20]) =
            Returns item (demo_named_model true [10; 20]) [].
Proof.
  exact (setData_position_is_one_past_data_index (H := demo_host true)
           (demo_named_model true [10; 20]) 1 0 99 fn_set fn_get
           ltac:(simpl; lia) ltac:(vm_compute; split; [discriminate | reflexivity])
           ltac:(reflexivity) ltac:(reflexivity)).
Defined.

Lemma append_adds_constructed_item_witness :
  append (H := demo_host true) (JSObject {[ "name"%string := 7 ]})
      (demo_growing_model true [10; 20]) =
    Returns tt (with_array (H := demo_host true) [10; 20; 7] (demo_growing_model true [10; 20]))
      [beginInsertRows 2 2; endInsertRows; countChanged] ∧
  data (H := demo_host true) 2 0
      (with_array (H := demo_host true) [10; 20; 7] (demo_growing_model true [10; 20])) =
    Returns 7 (with_array (H := demo_host true) [10; 20; 7] (demo_growing_model true [10; 20])) [].
Proof.
  assert (Hd : dense_roles (demo_growing_model true [10; 20])).
  { pose proof (addrole_gives_demo_named_model true) as Hadd.
    exact (addrole_dense (H := demo_host true) _ _ _ _ _ _
             (new_ListModel_dense (H := demo_host true) [10; 20] None) Hadd). }
  pose proof (append_adds_constructed_item (H := demo_host true)
    (demo_growing_model true [10; 20]) fn_make
    (JSObject {[ "name"%string := 7 ]}) 7 Hd
    ltac:(reflexivity) ltac:(vm_compute; reflexivity) ltac:(reflexivity))
    as (Happ & _ & _ & _ & Hdata).
  split; [exact Happ |].
  destruct (Hdata 0 ltac:(vm_compute; split; [discriminate | reflexivity]))
    as (g & Hg & Hread).
  injection Hg as <-. exact Hread.
Defined.

Lemma move_there_and_back_witness :
  0 < 2 ∧
  accepts_move (H := demo_host true) 0 3 2 (demo_hooked_model true [1; 2; 3; 4; 5]) ∧
  ∃ evs,
    (move (H := demo_host true) 0 3 2;; move 3 0 2) (demo_hooked_model true [1; 2; 3; 4; 5]) =
      Returns tt (demo_hooked_model true [1; 2; 3; 4; 5]) evs ∧
    qWarning InvalidMove ∉ evs.
Proof.
  assert (Hc : 0 < 2) by lia.
  assert (Ha : accepts_move (H := demo_host true) 0 3 2 (demo_hooked_model true [1; 2; 3; 4; 5])).
  { exists 0, 3, 2. split; vm_compute; reflexivity. }
  exact (conj Hc (conj Ha (move_there_and_back (H := demo_host true) _ _ _ _ Hc Ha))).
Defined.

Lemma accepted_move_shifts_block_witness :
  ∃ f t c a,
    normalize (H := demo_host true) 3 0 2 (demo_model true [1; 2; 3; 4; 5]) =
      Returns (f, t, c) (demo_model true [1; 2; 3; 4; 5]) [] ∧
    move (H := demo_host true) 3 0 2 (demo_model true [1; 2; 3; 4; 5]) =
      Returns tt (with_array (H := demo_host true) a (demo_model true [1; 2; 3; 4; 5]))
        (beginMoveRows f (f + c - 1) (t + c) ::
         hook_events (demo_model true [1; 2; 3; 4; 5]) ++ [endMoveRows]) ∧
    length a = 5%nat ∧
    ∀ k : nat, a !! k = [1; 2; 3; 4; 5] !! Z.to_nat (source_index f t c (Z.of_nat k)).
Proof.
  exact (accepted_move_shifts_block (H := demo_host true)
           (demo_model true [1; 2; 3; 4; 5]) 3 0 2
           ltac:(lia) ltac:(lia)
           ltac:(exists 0, 2, 3; split; vm_compute; reflexivity)).
Defined.


Lemma setData_null_setter_fails_witness :
  setData (H := demo_host true) 0 5 0 (demo_model true [10; 20]) =
    Returns false (demo_model true [10; 20]) [qWarning (NullSetter "string")].
Proof.
  exact (setData_null_setter_fails (H := demo_host true)
           (demo_model true [10; 20]) 0 0 5 "string"
           ltac:(simpl; lia) ltac:(vm_compute; split; [discriminate | reflexivity])
           ltac:(reflexivity) ltac:(reflexivity)).
Defined.


Lemma remove_out_of_range_witness :
  remove (H := demo_host true) 3 (demo_model true [10; 20; 30]) =
    Returns tt (demo_model true [10; 20; 30]) [qWarning (RowOutOfRange 3)].
Proof.
  exact (remove_out_of_range (H := demo_host true)
           (demo_model true [10; 20; 30]) 3 ltac:(simpl; lia)).
Defined.


(** The registries of the demo models are well-formed. *)
Lemma demo_named_model_well_formed u items :
  roles_well_formed (demo_named_model u items).
Proof.
  destruct (addrole_well_formed (H := demo_host u) (demo_model u items) "name"
              (Some fn_get) (Some fn_set)
              (new_ListModel_well_formed (H := demo_host u) items None))
    as (m' & evs & Hrun & Hwf & _).
  pose proof (addrole_default_run (H := demo_host u) (demo_model u items) "name"
                fn_get (Some fn_set) eq_refl ltac:(vm_compute; reflexivity)) as Heq.
  pose proof (eq_trans (eq_sym Hrun) Heq) as Hinj. by injection Hinj as -> _.
Qed.

Lemma demo_two_role_model_well_formed u items :
  roles_well_formed (demo_two_role_model u items).
Proof.
  destruct (addrole_well_formed (H := demo_host u) (demo_named_model u items) "age"
              (Some fn_string) None (demo_named_model_well_formed u items))
    as (m' & evs & Hrun & Hwf & _).
  assert (Heq : addrole (H := demo_host u) "age" (Some fn_string) None
                  (demo_named_model u items) =
                Returns tt (demo_two_role_model u items)
                  [protect_from_gc (H := demo_host u) (FunPtr (Some fn_string));
                   rolesChanged])
    by (destruct u; vm_compute; reflexivity).
  pose proof (eq_trans (eq_sym Hrun) Heq) as Hinj. by injection Hinj as -> _.
Qed.

Lemma demo_growing_model_dense u items : dense_roles (demo_growing_model u items).
Proof. exact (proj1 (demo_named_model_well_formed u items)). Qed.

Lemma row_out_of_range_is_refused_witness :
  data (H := demo_host true) 2 0 (demo_model true [10; 20]) =
    Returns (-1) (demo_model true [10; 20]) [qWarning (RowOutOfRange 2)] ∧
  setData (H := demo_host true) 2 5 0 (demo_model true [10; 20]) =
    Returns false (demo_model true [10; 20]) [qWarning (RowOutOfRange 2)].
Proof.
  exact (row_out_of_range_is_refused (H := demo_host true)
           (demo_model true [10; 20]) 2 0 5 ltac:(simpl; lia)).
Defined.

Lemma data_unknown_role_uses_string_witness :
  data (H := demo_host true) 1 3 (demo_model true [10; 20]) =
    Returns 20 (demo_model true [10; 20]) [qWarning (GetterRoleOutOfRange 3)].
Proof.
  exact (data_unknown_role_uses_string (H := demo_host true)
           (demo_model true [10; 20]) 1 3 20
           ltac:(lia) ltac:(reflexivity)
           ltac:(intros [_ Hlt]; vm_compute in Hlt; discriminate)).
Defined.

Lemma append_without_constructor_witness :
  append (H := demo_host true) (JSArray [7]) (demo_model true [10; 20]) =
    Returns tt (demo_model true [10; 20]) [qWarning NoConstructor].
Proof.
  exact (append_without_constructor (H := demo_host true)
           (demo_model true [10; 20]) (JSArray [7])
           (new_ListModel_dense (H := demo_host true) [10; 20] None)
           ltac:(reflexivity)).
Defined.

Lemma append_rejected_record_witness :
  append (H := demo_host true) (JSArray []) (demo_growing_model true [10; 20]) =
    Returns tt (demo_growing_model true [10; 20])
      [qWarning (H := demo_host true) (AppendError [])].
Proof.
  exact (append_rejected_record (H := demo_host true)
           (demo_growing_model true [10; 20]) fn_make (JSArray [])
           (demo_growing_model_dense true [10; 20])
           ltac:(reflexivity) ltac:(reflexivity)).
Defined.

Lemma setProperty_known_name_witness :
  setProperty (H := demo_host true) 1 "name" 99 (demo_named_model true [10; 20]) =
    Returns tt
      (with_array (H := demo_host true) [10; 99] (demo_named_model true [10; 20]))
      [setter_called (H := demo_host true) fn_set 99 2; dataChanged 1 1 [0]].
Proof.
  exact (setProperty_known_name (H := demo_host true)
           (demo_named_model true [10; 20]) 1 "name" 99 0 fn_set
           (proj2 (demo_named_model_well_formed true [10; 20]))
           ltac:(vm_compute; reflexivity) ltac:(simpl; lia)
           ltac:(vm_compute; split; [discriminate | reflexivity])
           ltac:(reflexivity)).
Defined.

Lemma addrole_twice_witness :
  addrole (H := demo_host true) "name" (Some fn_string) None
      (demo_named_model true [10; 20]) =
    Returns tt (demo_named_model true [10; 20]) [qWarning (RoleExists "name")].
Proof.
  exact (addrole_twice (H := demo_host true)
           (demo_model true [10; 20]) "name" fn_get (Some fn_set)
           (demo_named_model true [10; 20]) _ (Some fn_string) None
           ltac:(vm_compute; reflexivity)
           (addrole_gives_demo_named_model true)).
Defined.

Lemma addrole_first_custom_role_replaces_registry_witness :
  addrole (H := demo_host true) "name" (Some fn_get) (Some fn_set)
      (demo_hooked_model true [10; 20]) =
    Returns tt
      (with_roles (H := demo_host true) {[ 0 := "name"%string ]} [Some fn_get]
         [Some fn_set] true (demo_hooked_model true [10; 20]))
      [protect_from_gc (H := demo_host true) (FunPtr (Some fn_get));
       protect_from_gc (H := demo_host true) (FunPtr (Some fn_set));
       rolesChanged] ∧
  roles (H := demo_host true)
      (with_roles (H := demo_host true) {[ 0 := "name"%string ]} [Some fn_get]
         [Some fn_set] true (demo_hooked_model true [10; 20])) =
    Returns ["name"%string]
      (with_roles (H := demo_host true) {[ 0 := "name"%string ]} [Some fn_get]
         [Some fn_set] true (demo_hooked_model true [10; 20])) [].
Proof.
  exact (addrole_first_custom_role_replaces_registry (H := demo_host true)
           (demo_hooked_model true [10; 20]) "name" fn_get (Some fn_set)
           ltac:(reflexivity) ltac:(vm_compute; reflexivity)).
Defined.

Lemma addrole_appends_role_witness :
  ∃ m',
    addrole (H := demo_host true) "age" (Some fn_string) None
        (demo_named_model true [10; 20]) =
      Returns tt m'
        [protect_from_gc (H := demo_host true) (FunPtr (Some fn_string));
         rolesChanged] ∧
    m_array m' = [10; 20] ∧
    (∀ l, roles (H := demo_host true) (demo_named_model true [10; 20]) =
            Returns l (demo_named_model true [10; 20]) [] →
          roles m' = Returns (l ++ ["age"%string]) m' []) ∧
    rolegetter 1 m' = Returns fn_string m' [] ∧
    (∀ (r : nat) g0, [Some fn_get] !! r = Some (Some g0) →
       rolegetter (Z.of_nat r) m' = Returns g0 m' []).
Proof.
  exact (addrole_appends_role (H := demo_host true)
           (demo_named_model true [10; 20]) "age" fn_string None
           (proj1 (demo_named_model_well_formed true [10; 20]))
           ltac:(reflexivity) ltac:(vm_compute; reflexivity)).
Defined.

Lemma registry_calls_keep_roles_well_formed_witness :
  ∃ m' evs,
    run_calls (H := demo_host true) (demo_calls true) (demo_model true [10; 20]) =
      Returns tt m' evs ∧
    roles_well_formed m' ∧ m_array m' = [10; 20].
Proof.
  exact (registry_calls_keep_roles_well_formed (H := demo_host true)
           (demo_model true [10; 20]) (demo_calls true)
           (new_ListModel_well_formed (H := demo_host true) [10; 20] None)).
Defined.


Lemma setrole_refused_witness :
  ∃ w, setrole (H := demo_host true) 3 "age" (Some fn_get) None
           (demo_named_model true [10; 20]) =
         Returns tt (demo_named_model true [10; 20]) [qWarning w].
Proof.
  exact (setrole_refused (H := demo_host true)
           (demo_named_model true [10; 20]) 3 "age" (Some fn_get) None
           ltac:(left; simpl; lia)).
Defined.

Lemma removerole_shifts_roles_down_witness :
  ∃ m',
    removerole (H := demo_host true) 0 (demo_two_role_model true [10; 20]) =
      Returns tt m'
        [unprotect_from_gc (H := demo_host true) (FunPtr (Some fn_get));
         unprotect_from_gc (H := demo_host true) (FunPtr (Some fn_set));
         rolesChanged] ∧
    m_array m' = [10; 20] ∧
    m_getters m' = [Some fn_string] ∧
    m_setters m' = [None] ∧
    ∀ l, roles (H := demo_host true) (demo_two_role_model true [10; 20]) =
           Returns l (demo_two_role_model true [10; 20]) [] →
         roles m' = Returns (delete 0%nat l) m' [].
Proof.
  exact (removerole_shifts_roles_down (H := demo_host true)
           (demo_two_role_model true [10; 20]) 0 (Some fn_get) (Some fn_set)
           (proj1 (demo_two_role_model_well_formed true [10; 20]))
           ltac:(lia) ltac:(reflexivity) ltac:(reflexivity)).
Defined.

Lemma removerole_by_name_removes_its_role_witness :
  removerole_by_name (H := demo_host true) "name" (demo_two_role_model true [10; 20]) =
    removerole 0 (demo_two_role_model true [10; 20]) ∧
  ∃ m' evs,
    removerole (H := demo_host true) 0 (demo_two_role_model true [10; 20]) =
      Returns tt m' evs ∧
    rolenames_contains "name" m' = false.
Proof.
  exact (removerole_by_name_removes_its_role (H := demo_host true)
           (demo_two_role_model true [10; 20]) "name" 0
           (demo_two_role_model_well_formed true [10; 20])
           ltac:(vm_compute; reflexivity)).
Defined.

Lemma roles_lists_names_in_id_order_witness :
  ∃ l,
    roles (H := demo_host true) (demo_two_role_model true [10; 20]) =
      Returns l (demo_two_role_model true [10; 20]) [] ∧
    length l = 2%nat ∧
    ∀ i : nat, l !! i = m_rolenames (demo_two_role_model true [10; 20]) !! Z.of_nat i.
Proof.
  exact (roles_lists_names_in_id_order (H := demo_host true)
           (demo_two_role_model true [10; 20])
           (proj1 (demo_two_role_model_well_formed true [10; 20]))).
Defined.

Lemma insert_places_item_at_index_witness :
  insert (H := demo_host true) 1 (JSArray [7]) (demo_growing_model true [10; 20]) =
    Returns tt
      (with_array (H := demo_host true) [10; 7; 20] (demo_growing_model true [10; 20]))
      [beginInsertRows 2 2; endInsertRows; countChanged;
       beginMoveRows 1 1 3; endMoveRows].
Proof.
  exact (insert_places_item_at_index (H := demo_host true)
           (demo_growing_model true [10; 20]) fn_make (JSArray [7]) 7 1
           (demo_growing_model_dense true [10; 20])
           ltac:(reflexivity) ltac:(reflexivity) ltac:(simpl; lia)
           ltac:(reflexivity)).
Defined.

Lemma insert_out_of_range_appends_witness :
  insert (H := demo_host true) 5 (JSArray [7]) (demo_growing_model true [10; 20]) =
    Returns tt
      (with_array (H := demo_host true) [10; 20; 7] (demo_growing_model true [10; 20]))
      [beginInsertRows 2 2; endInsertRows; countChanged; qWarning InvalidMove].
Proof.
  exact (insert_out_of_range_appends (H := demo_host true)
           (demo_growing_model true [10; 20]) fn_make (JSArray [7]) 7 5
           (demo_growing_model_dense true [10; 20])
           ltac:(reflexivity) ltac:(reflexivity) ltac:(left; simpl; lia)).
Defined.

Lemma append_then_remove_last_restores_witness :
  (append (H := demo_host true) (JSArray [7]);; remove 2)
      (demo_growing_model true [10; 20]) =
    Returns tt (demo_growing_model true [10; 20])
      [beginInsertRows 2 2; endInsertRows; countChanged;
       beginRemoveRows 2 2; endRemoveRows; countChanged].
Proof.
  exact (append_then_remove_last_restores (H := demo_host true)
           (demo_growing_model true [10; 20]) fn_make (JSArray [7]) 7
           (demo_growing_model_dense true [10; 20])
           ltac:(reflexivity) ltac:(reflexivity) ltac:(reflexivity)).
Defined.


Lemma move_block_towards_back_witness :
  move (H := demo_host true) 1 2 2 (demo_model true [1; 2; 3; 4; 5]) =
    Returns tt
      (with_array (H := demo_host true) [1; 4; 2; 3; 5] (demo_model true [1; 2; 3; 4; 5]))
      [beginMoveRows 1 2 4; endMoveRows].
Proof.
  exact (move_block_towards_back (H := demo_host true)
           (demo_model true [1; 2; 3; 4; 5]) [1] [2; 3] [4] [5]
           ltac:(reflexivity) ltac:(discriminate) ltac:(discriminate)
           ltac:(vm_compute; discriminate)).
Defined.

Lemma move_block_towards_front_witness :
  move (H := demo_host true) 2 1 2 (demo_model true [1; 4; 2; 3; 5]) =
    Returns tt
      (with_array (H := demo_host true) [1; 2; 3; 4; 5] (demo_model true [1; 4; 2; 3; 5]))
      [beginMoveRows 1 1 4; endMoveRows].
Proof.
  exact (move_block_towards_front (H := demo_host true)
           (demo_model true [1; 4; 2; 3; 5]) [1] [2; 3] [4] [5]
           ltac:(reflexivity) ltac:(discriminate) ltac:(discriminate)
           ltac:(vm_compute; discriminate)).
Defined.

Lemma pins_balance_over_lifetime_witness :
  ∃ m1 evs1 m2 evs2 evs3,
    addrole (H := demo_host true) "name" (Some fn_get) (Some fn_set)
        (new_ListModel (H := demo_host true) [10; 20] (Some fn_hook)).1 =
      Returns tt m1 evs1 ∧
    run_calls (demo_calls true) m1 = Returns tt m2 evs2 ∧
    delete_ListModel m2 = Returns tt m2 evs3 ∧
    protected ((new_ListModel (H := demo_host true) [10; 20] (Some fn_hook)).2 ++
               evs1 ++ evs2 ++ evs3) ≡ₚ
    released ((new_ListModel (H := demo_host true) [10; 20] (Some fn_hook)).2 ++
              evs1 ++ evs2 ++ evs3).
Proof.
  exact (pins_balance_over_lifetime (H := demo_host true)
           [10; 20] (Some fn_hook) "name" fn_get (Some fn_set) (demo_calls true)
           ltac:(discriminate)).
Defined.

Lemma insert_is_insert_list_of_positional_witness :
  insert (H := demo_host true) 0 (JSObject {[ "name"%string := 7; "colour"%string := 3 ]})
      (demo_growing_model true [10; 20]) =
    insert_list (H := demo_host true) 0 [7] (demo_growing_model true [10; 20]).
Proof.
  exact (insert_is_insert_list_of_positional (H := demo_host true)
           (demo_growing_model true [10; 20]) 0
           (JSObject {[ "name"%string := 7; "colour"%string := 3 ]})
           (demo_growing_model_dense true [10; 20])).
Defined.

End qmlwrap.
